(** * The repositories API of node-bitbucket-v2

  A shallow embedding of [src/bitbucket/repositories.js]: the JavaScript
  values the methods inspect, the string operations behind the slug and
  the request paths, the lodash helpers the methods call, and the methods
  themselves as functions that either throw or hand one request to the
  injected [api] object. *)

From Stdlib Require Import String Ascii List ZArith NArith Bool Arith Lia
  DecimalString.
Import ListNotations.

Open Scope string_scope.

(** ** JavaScript values *)

Module Js.

(** The values that reach the methods.  A number is an integer within the
    safe range, whose [ToString] is its plain decimal form; an object lists
    its own enumerable properties in enumeration order. *)
#[warnings="-register-all"]
Inductive value : Type :=
| VUndefined
| VNull
| VBool (b : bool)
| VNum (n : Z)
| VStr (s : string)
| VArr (elems : list value)
| VObj (props : list (string * value)).

(** [ToBoolean]: what [!v] and [if (v)] test. *)
Definition truthy (v : value) : bool :=
  match v with
  | VUndefined | VNull => false
  | VBool b => b
  | VNum n => negb (n =? 0)%Z
  | VStr s => negb (String.eqb s "")
  | VArr _ | VObj _ => true
  end.

Fixpoint lookup (props : list (string * value)) (key : string) : value :=
  match props with
  | [] => VUndefined
  | (k, v) :: rest => if String.eqb k key then v else lookup rest key
  end.

(** [v[key]] for the property names the source reads by name
    ([is_private], [name], [state], [fields], [links], [forks], [href]):
    none is an index or [length], so only an object can hold one. *)
Definition prop (v : value) (key : string) : value :=
  match v with
  | VObj props => lookup props key
  | _ => VUndefined
  end.

Definition string_of_Z (n : Z) : string :=
  NilZero.string_of_int (Z.to_int n).

(** [ToString], with [Array.prototype.toString] being [join(',')]. *)
Fixpoint ToString (v : value) : string :=
  match v with
  | VUndefined => "undefined"
  | VNull => "null"
  | VBool true => "true"
  | VBool false => "false"
  | VNum n => string_of_Z n
  | VStr s => s
  | VArr elems =>
      String.concat ","
        (map (fun e => match e with
                       | VUndefined | VNull => ""
                       | _ => ToString e
                       end) elems)
  | VObj _ => "[object Object]"
  end.

(** [Array.prototype.join]: [undefined] and [null] elements give the empty
    string, every other element its [ToString]. *)
Definition join (elems : list value) (separator : string) : string :=
  String.concat separator
    (map (fun e => match e with
                   | VUndefined | VNull => ""
                   | _ => ToString e
                   end) elems).

(** [a === b].  Arrays and objects are compared by identity, and a value
    built by the caller is never the very object it is compared with. *)
Definition strict_equals (a b : value) : bool :=
  match a, b with
  | VUndefined, VUndefined => true
  | VNull, VNull => true
  | VBool x, VBool y => Bool.eqb x y
  | VNum x, VNum y => (x =? y)%Z
  | VStr x, VStr y => String.eqb x y
  | _, _ => false
  end.

End Js.
Import Js.

(** ** Strings: the regular expressions of the slug, and [encodeURI] *)

Module Str.

Local Open Scope nat_scope.

Definition code (c : ascii) : nat := nat_of_ascii c.

Definition between (lo hi n : nat) : bool := (lo <=? n) && (n <=? hi).

Definition is_upper (c : ascii) : bool := between 65 90 (code c).
Definition is_lower (c : ascii) : bool := between 97 122 (code c).
Definition is_digit (c : ascii) : bool := between 48 57 (code c).

(** [\w] is [[A-Za-z0-9_]]; [\W] is its complement. *)
Definition is_word (c : ascii) : bool :=
  is_upper c || is_lower c || is_digit c || (code c =? 95).

Definition is_dash (c : ascii) : bool := code c =? 45.

(** The class of the first regular expression: the apostrophe (39) and
    the double quote (34). *)
Definition is_quote (c : ascii) : bool := (code c =? 39) || (code c =? 34).

(** The first [replace] of the slug: every apostrophe and double quote is
    replaced by the empty string. *)
Fixpoint remove_quotes (s : string) : string :=
  match s with
  | EmptyString => EmptyString
  | String c rest =>
      if is_quote c then remove_quotes rest
      else String c (remove_quotes rest)
  end.

(** [s.replace(/\W/g, '-')] *)
Fixpoint dash_non_word (s : string) : string :=
  match s with
  | EmptyString => EmptyString
  | String c rest =>
      String (if is_word c then c else "-"%char) (dash_non_word rest)
  end.

(** [s.replace(/--+/g, '-')]: every maximal run of two or more dashes is
    replaced by one dash, so a dash that another dash follows is dropped
    and the last dash of the run is the one kept. *)
Fixpoint collapse_dashes (s : string) : string :=
  match s with
  | EmptyString => EmptyString
  | String c rest =>
      if is_dash c then
        match rest with
        | String d _ =>
            if is_dash d then collapse_dashes rest
            else String c (collapse_dashes rest)
        | EmptyString => String c EmptyString
        end
      else String c (collapse_dashes rest)
  end.

(** [s.replace(/^-/, '')] *)
Definition strip_leading_dash (s : string) : string :=
  match s with
  | String c rest => if is_dash c then rest else s
  | EmptyString => EmptyString
  end.

(** [s.replace(/-$/, '')] *)
Fixpoint strip_trailing_dash (s : string) : string :=
  match s with
  | EmptyString => EmptyString
  | String c EmptyString => if is_dash c then EmptyString else s
  | String c rest => String c (strip_trailing_dash rest)
  end.

(** [toLowerCase] on one code unit below 256: the ASCII capitals and the
    Latin-1 capitals (all of 192..222 but the multiplication sign 215)
    move up by 32. *)
Definition lower_char (c : ascii) : ascii :=
  if is_upper c || (between 192 222 (code c) && negb (code c =? 215))
  then ascii_of_nat (code c + 32)
  else c.

Fixpoint toLowerCase (s : string) : string :=
  match s with
  | EmptyString => EmptyString
  | String c rest => String (lower_char c) (toLowerCase rest)
  end.

(** [encodeURI] leaves these alone: the letters and digits, the marks
    [-_.!~*'()], the reserved [;/?:@&=+$,], and [#]. *)
Definition uri_mark (c : ascii) : bool :=
  existsb (Nat.eqb (code c)) [45; 95; 46; 33; 126; 42; 39; 40; 41].

Definition uri_reserved (c : ascii) : bool :=
  existsb (Nat.eqb (code c)) [59; 47; 63; 58; 64; 38; 61; 43; 36; 44].

Definition uri_unescaped (c : ascii) : bool :=
  is_upper c || is_lower c || is_digit c || uri_mark c.

Definition encodeURI_keeps (c : ascii) : bool :=
  uri_reserved c || uri_unescaped c || (code c =? 35).

Definition hex_digit (n : nat) : ascii :=
  nth n (list_ascii_of_string "0123456789ABCDEF") "0"%char.

(** One octet as [%XX]. *)
Definition percent (octet : nat) (tail : string) : string :=
  String "%" (String (hex_digit (octet / 16))
                (String (hex_digit (octet mod 16)) tail)).

(** The UTF-8 octets of a code unit below 256, each as [%XX]. *)
Definition percent_utf8 (c : ascii) (tail : string) : string :=
  let n := code c in
  if n <? 128 then percent n tail
  else percent (192 + n / 64) (percent (128 + n mod 64) tail).

Fixpoint encodeURI (s : string) : string :=
  match s with
  | EmptyString => EmptyString
  | String c rest =>
      if encodeURI_keeps c then String c (encodeURI rest)
      else percent_utf8 c (encodeURI rest)
  end.

End Str.
Import Str.

(** ** The lodash functions the methods call *)

Module Lodash.

Definition MAX_SAFE_INTEGER : Z := 9007199254740991.

Definition isLength (v : value) : bool :=
  match v with
  | VNum n => ((0 <=? n) && (n <=? MAX_SAFE_INTEGER))%Z
  | _ => false
  end.

(** A string and an array always have a valid length; an object is
    array-like when it holds a valid numeric [length]. *)
Definition isArrayLike (v : value) : bool :=
  match v with
  | VStr _ | VArr _ => true
  | VObj props => isLength (lookup props "length")
  | _ => false
  end.

Definition isArray (v : value) : bool :=
  match v with VArr _ => true | _ => false end.

Definition isString (v : value) : bool :=
  match v with VStr _ => true | _ => false end.

Definition isBoolean (v : value) : bool :=
  match v with VBool _ => true | _ => false end.

(** What an array-like collection holds at the indices below its length:
    the one-character strings of a string, the elements of an array, the
    properties named by the indices of an object. *)
Definition elements (v : value) : list value :=
  match v with
  | VStr s => map (fun c => VStr (String c "")) (list_ascii_of_string s)
  | VArr elems => elems
  | VObj props =>
      match lookup props "length" with
      | VNum n =>
          map (fun i => lookup props (string_of_Z (Z.of_nat i)))
            (seq 0 (Z.to_nat n))
      | _ => []
      end
  | _ => []
  end.

(** [_.keys] of a collection that is not array-like: the own enumerable
    property names, none for a primitive. *)
Definition keys (v : value) : list string :=
  match v with
  | VObj props => map fst props
  | _ => []
  end.

(** What [_.find] and [_.includes] walk through: the elements of an
    array-like collection in index order, the property values of any other
    in key order. *)
Definition iterated (collection : value) : list value :=
  if isArrayLike collection then elements collection
  else map (prop collection) (keys collection).

(** [_.find(collection, predicate)]: the first iterated value the predicate
    accepts, [undefined] when there is none. *)
Definition find (collection : value) (predicate : value -> bool) : value :=
  match List.find predicate (iterated collection) with
  | Some found => found
  | None => VUndefined
  end.

(** [_.includes(collection, value)]: a substring test on a string, strict
    equality against the iterated values otherwise. *)
Definition includes (collection value : value) : bool :=
  match collection with
  | VStr s =>
      match String.index 0 (ToString value) s with
      | Some _ => true
      | None => false
      end
  | _ => existsb (strict_equals value) (iterated collection)
  end.

Fixpoint baseGet (object : value) (path : list string) : value :=
  match path with
  | [] => object
  | key :: rest =>
      match object with
      | VUndefined | VNull => VUndefined
      | _ => baseGet (prop object key) rest
      end
  end.

(** [_.get(object, path)] with an array path and no default value. *)
Definition get (object : value) (path : list string) : value :=
  match path with
  | [] => VUndefined
  | _ => baseGet object path
  end.

End Lodash.

(** ** The injected [api] object and what a method call can do *)

Module Api.

(** The calls a method can make on [api]. [get] with one argument has
    [undefined] parameters. *)
Inductive request : Type :=
| post (path : string) (body : value)
| get (path : string) (params : value)
| doPrebuiltSend (url : value).

Definition path_of (r : request) : option string :=
  match r with
  | post path _ | get path _ => Some path
  | doPrebuiltSend _ => None
  end.

End Api.

Inductive exn : Type :=
| Error (message : string)
| TypeError (message : string).

Inductive completion (A : Type) : Type :=
| Return (a : A)
| Throw (e : exn).

Arguments Return {A} a.
Arguments Throw {A} e.

(** A method takes the list of the requests [api] has received so far and
    gives its completion with the list extended by the requests it made. *)
Definition M (A : Type) : Type :=
  list Api.request -> completion A * list Api.request.

Definition throw {A : Type} (e : exn) : M A :=
  fun sent => (Throw e, sent).

(** ** The methods of [RepositoriesApi(api)] *)

Module RepositoriesApi.

(** The expression bound to [repoSlug] in [create], as a function of
    [repo.name]. *)
Definition deriveSlug (name : string) : string :=
  toLowerCase
    (strip_trailing_dash
       (strip_leading_dash
          (collapse_dashes
             (dash_non_word
                (remove_quotes name))))).

Definition create_error : exn :=
  Error "Repo must be initialized with a booelan privacy setting and a string name".

Definition fields_error : exn :=
  Error "getPullRequestsWithFields: options argument missing or has missing/empty 'fields' array.".

Definition forks_error : exn :=
  Error "getForksFromResponse: argument has no 'forks' url.".

Definition parent_error : exn :=
  Error "getForksFromResponse: argument has no 'parent' info. Call hasParent first to guard this method call.".

Section Methods.

(** What [api] answers to a request: the methods return it as it is. *)
Variable api : Api.request -> completion value.

(** [constants.pullRequest.states] of ./constants, which is not among the
    sources. *)
Variable states : value.

(** [extractResponseBody] of ./helpers, which is not among the sources. *)
Variable extractResponseBody : value -> value.

Definition send (r : Api.request) : M value :=
  fun sent => (api r, (sent ++ [r])%list).

Definition OPEN : value := prop states "OPEN".

Definition create (workspace : string) (repo : value) : M value :=
  if negb (truthy repo)
     || negb (Lodash.isBoolean (prop repo "is_private"))
     || negb (Lodash.isString (prop repo "name"))
  then throw create_error
  else
    match prop repo "name" with
    | VStr name =>
        let repoSlug := deriveSlug name in
        send (Api.post
                ("repositories/" ++ encodeURI workspace ++ "/" ++ encodeURI repoSlug)
                repo)
    | _ => throw (TypeError "repo.name.replace is not a function")
    end.

Definition createPullRequest (workspace repoSlug : string) (pullRequest : value)
  : M value :=
  send (Api.post
          ("repositories/" ++ encodeURI workspace ++ "/" ++ encodeURI repoSlug
             ++ "/pullrequests")
          pullRequest).

Definition get (workspace repoSlug : string) : M value :=
  send (Api.get
          ("repositories/" ++ encodeURI workspace ++ "/" ++ encodeURI repoSlug)
          VUndefined).

Definition getBranches (workspace repoSlug : string) : M value :=
  send (Api.get
          ("repositories/" ++ encodeURI workspace ++ "/" ++ encodeURI repoSlug
             ++ "/refs/branches")
          VUndefined).

Definition getCommit (workspace repoSlug sha : string) : M value :=
  send (Api.get
          ("repositories/" ++ encodeURI workspace ++ "/" ++ encodeURI repoSlug
             ++ "/commit/" ++ sha)
          VUndefined).

Definition getPullRequests (workspace repoSlug : string) (state : value)
  : M value :=
  let stateArray :=
    if negb (truthy state) then [OPEN]
    else match state with
         | VArr elems => elems
         | _ => [state]
         end in
  let hasInvalidState :=
    Lodash.find state
      (fun stateElement => negb (Lodash.includes states stateElement)) in
  let stateArray := if truthy hasInvalidState then [OPEN] else stateArray in
  let apiParameters := VObj [("state", VStr (join stateArray ","))] in
  send (Api.get
          ("repositories/" ++ encodeURI workspace ++ "/" ++ encodeURI repoSlug
             ++ "/pullrequests")
          apiParameters).

Definition getPullRequestsWithFields (workspace repoSlug : string)
  (options : value) : M value :=
  match options with
  | VNull =>
      throw (TypeError "Cannot destructure property 'state' of 'object null' as it is null.")
  | _ =>
      let options := match options with VUndefined => VObj [] | _ => options end in
      let state := prop options "state" in
      let fields := prop options "fields" in
      match fields with
      | VArr fieldList =>
          if (List.length fieldList <? 1)%nat then throw fields_error
          else
            let stateArray :=
              if negb (truthy state) then [OPEN]
              else match state with
                   | VArr elems => elems
                   | _ => [state]
                   end in
            let hasInvalidState :=
              Lodash.find state
                (fun stateElement => negb (Lodash.includes states stateElement)) in
            let stateArray := if truthy hasInvalidState then [OPEN] else stateArray in
            let fieldsWithEncodedPlus :=
              map (fun field => VStr ("+" ++ ToString field)) fieldList in
            let apiParameters :=
              VObj [("state", VStr (join stateArray ","));
                    ("fields", VStr (join fieldsWithEncodedPlus ","))] in
            send (Api.get
                    ("repositories/" ++ encodeURI workspace ++ "/"
                       ++ encodeURI repoSlug ++ "/pullrequests")
                    apiParameters)
      | _ => throw fields_error
      end
  end.

Definition getByWorkspace (workspace : string) : M value :=
  send (Api.get ("repositories/" ++ encodeURI workspace) VUndefined).

Definition getForks (workspace repoSlug : string) : M value :=
  send (Api.get
          ("repositories/" ++ encodeURI workspace ++ "/" ++ encodeURI repoSlug
             ++ "/forks")
          VUndefined).

Definition getForksFromResponse (response : value) : M value :=
  let prebuiltURL :=
    Lodash.get (extractResponseBody response) ["links"; "forks"; "href"] in
  if negb (truthy prebuiltURL) then throw forks_error
  else send (Api.doPrebuiltSend prebuiltURL).

Definition getParentFromResponse (response : value) : M value :=
  let prebuiltURL :=
    Lodash.get (extractResponseBody response)
      ["parent"; "links"; "self"; "href"] in
  if negb (truthy prebuiltURL) then throw parent_error
  else send (Api.doPrebuiltSend prebuiltURL).

(** [Boolean(extractResponseBody(response).parent)]: reading a property of
    [undefined] or [null] is a [TypeError]; no request is involved. *)
Definition hasParent (response : value) : completion bool :=
  match extractResponseBody response with
  | VUndefined =>
      Throw (TypeError "Cannot read properties of undefined (reading 'parent')")
  | VNull =>
      Throw (TypeError "Cannot read properties of null (reading 'parent')")
  | body => Return (truthy (prop body "parent"))
  end.

End Methods.

End RepositoriesApi.

(** Modelled from the spec: [constants.pullRequest.states], an object of
    ./constants; the spec gives the closed enumeration of the state tokens
    as OPEN, MERGED, DECLINED and SUPERSEDED. *)
Definition pullRequest_states : value :=
  VObj [("OPEN", VStr "OPEN"); ("MERGED", VStr "MERGED");
        ("DECLINED", VStr "DECLINED"); ("SUPERSEDED", VStr "SUPERSEDED")].

(** Modelled from the spec: [extractResponseBody] of ./helpers; the spec has
    the accessors work on a response object or on its unwrapped body, so a
    response that holds a [body] gives it and any other value is the body. *)
Definition responseBody (response : value) : value :=
  if truthy (prop response "body") then prop response "body" else response.

(** The percent-encoding the spec asks for in a path segment: every
    character that is not unreserved is encoded, the slash among them
    (JavaScript's [encodeURIComponent]). *)
Fixpoint encodeURIComponent (s : string) : string :=
  match s with
  | EmptyString => EmptyString
  | String c rest =>
      if uri_unescaped c then String c (encodeURIComponent rest)
      else percent_utf8 c (encodeURIComponent rest)
  end.

(** What a percent-encoded string is made of: the characters [encodeURI]
    keeps, and the percent sign of the escapes. *)
Definition uri_char (c : ascii) : bool :=
  encodeURI_keeps c || Nat.eqb (code c) 37.


(** [encodeURI] and [encodeURIComponent] on every JavaScript string, a
    sequence of 16-bit code units, as ECMAScript defines them. *)
Module Utf16.

Local Open Scope N_scope.


Definition within (lo hi u : N) : bool := (lo <=? u) && (u <=? hi).

(** The leading surrogates D800..DBFF and the trailing ones DC00..DFFF. *)
Definition is_leading (u : N) : bool := within 55296 56319 u.
Definition is_trailing (u : N) : bool := within 56320 57343 u.

(** The code point of a surrogate pair. *)
Definition pair_code_point (lead trail : N) : N :=
  (lead - 55296) * 1024 + (trail - 56320) + 65536.

(** The UTF-8 octets of a code point: one to four. *)
Definition utf8 (cp : N) : list N :=
  if cp <? 128 then [cp]
  else if cp <? 2048 then [192 + cp / 64; 128 + cp mod 64]
  else if cp <? 65536 then
    [224 + cp / 4096; 128 + (cp / 64) mod 64; 128 + cp mod 64]
  else
    [240 + cp / 262144; 128 + (cp / 4096) mod 64; 128 + (cp / 64) mod 64;
     128 + cp mod 64].

(** Every octet of the code point as [%XX], in front of [tail]. *)
Definition escape (cp : N) (tail : string) : string :=
  fold_right (fun octet => percent (N.to_nat octet)) tail (utf8 cp).

(** The letters, the digits and the marks [-_.!~*'()]. *)
Definition unescaped (u : N) : bool :=
  within 65 90 u || within 97 122 u || within 48 57 u
  || existsb (N.eqb u) [45; 95; 46; 33; 126; 42; 39; 40; 41].

(** The reserved [;/?:@&=+$,] and [#]. *)
Definition reserved (u : N) : bool :=
  existsb (N.eqb u) [59; 47; 63; 58; 64; 38; 61; 43; 36; 44] || (u =? 35).

(** The encoding loop: a code unit of the unescaped set is copied; any
    other is read as a code point, a surrogate pair taking two units, and
    escaped; an unpaired surrogate is a [URIError], here [None]. *)
Fixpoint Encode (keeps : N -> bool) (units : list N) : option string :=
  match units with
  | [] => Some ""
  | u :: rest =>
      if keeps u then option_map (String (ascii_of_N u)) (Encode keeps rest)
      else if is_trailing u then None
      else if is_leading u then
        match rest with
        | v :: rest' =>
            if is_trailing v
            then option_map (escape (pair_code_point u v)) (Encode keeps rest')
            else None
        | [] => None
        end
      else option_map (escape u) (Encode keeps rest)
  end.

Definition encodeURI (units : list N) : option string :=
  Encode (fun u => unescaped u || reserved u) units.

Definition encodeURIComponent (units : list N) : option string :=
  Encode unescaped units.

End Utf16.

(** The path of the two pull-request queries. *)
Definition pullrequests_path (workspace repoSlug : string) : string :=
  "repositories/" ++ encodeURI workspace ++ "/" ++ encodeURI repoSlug
    ++ "/pullrequests".

(** A method hands over to [api]: it either throws by itself, having made no
    request, or makes one request and completes as [api] does on it. *)
Definition hands_over (api : Api.request -> completion value) (m : M value)
  : Prop :=
  forall sent,
    (exists e, m sent = (Throw e, sent))
    \/ (exists r, m sent = (api r, (sent ++ [r])%list)).

(** An [api] that answers every request with [undefined]. *)
Definition quiet_api (r : Api.request) : completion value := Return VUndefined.

(** ** What the spec asks of a slug *)

Module Slug.

Local Open Scope nat_scope.

Fixpoint all_chars (p : ascii -> bool) (s : string) : bool :=
  match s with
  | EmptyString => true
  | String c rest => p c && all_chars p rest
  end.

Definition starts_with_dash (s : string) : bool :=
  match s with
  | String c _ => is_dash c
  | EmptyString => false
  end.

Fixpoint ends_with_dash (s : string) : bool :=
  match s with
  | EmptyString => false
  | String c EmptyString => is_dash c
  | String _ rest => ends_with_dash rest
  end.

Fixpoint has_double_dash (s : string) : bool :=
  match s with
  | EmptyString => false
  | String c rest => (is_dash c && starts_with_dash rest) || has_double_dash rest
  end.

(** The characters [[a-z0-9._-]]. *)
Definition slug_char (c : ascii) : bool :=
  is_lower c || is_digit c || (code c =? 46) || (code c =? 95) || is_dash c.

(** Printable ASCII: the space to the tilde. *)
Definition printable (c : ascii) : bool := between 32 126 (code c).

(** The two characters the first [replace] removes. *)
Definition apostrophe : ascii := ascii_of_nat 39.
Definition double_quote : ascii := ascii_of_nat 34.

(** ASCII: a code unit below 128. *)
Definition is_ascii (c : ascii) : bool := code c <? 128.

(** The characters a derived slug is made of: [[a-z0-9_-]]. *)
Definition derived_char (c : ascii) : bool :=
  is_lower c || is_digit c || (code c =? 95) || is_dash c.

End Slug.
Import Slug.

(** Every path among the requests is made of URI characters only. *)
Definition paths_clean (requests : list Api.request) : bool :=
  forallb (fun r => match Api.path_of r with
                    | Some path => all_chars uri_char path
                    | None => true
                    end) requests.

Import RepositoriesApi.

(** * Properties *)

(** ** The slug *)

Section CharacterFacts.

Local Open Scope nat_scope.

Lemma lower_char_slug_char (c : ascii) :
  is_word c || is_dash c = true -> slug_char (lower_char c) = true.
Proof.
  destruct c as [[] [] [] [] [] [] [] []]; vm_compute; intros H;
    first [reflexivity | discriminate H].
Qed.

Lemma lower_char_dash (c : ascii) : is_dash (lower_char c) = is_dash c.
Proof. destruct c as [[] [] [] [] [] [] [] []]; reflexivity. Qed.

Lemma slug_char_lower (c : ascii) : slug_char c = true -> lower_char c = c.
Proof.
  destruct c as [[] [] [] [] [] [] [] []]; vm_compute; intros H;
    first [reflexivity | discriminate H].
Qed.

Lemma slug_char_not_upper (c : ascii) : slug_char c = true -> is_upper c = false.
Proof.
  destruct c as [[] [] [] [] [] [] [] []]; vm_compute; intros H;
    first [reflexivity | discriminate H].
Qed.

End CharacterFacts.

Lemma all_chars_dash_non_word (s : string) :
  all_chars (fun c => is_word c || is_dash c) (dash_non_word s) = true.
Proof.
  induction s as [|c rest IH]; simpl; [reflexivity|].
  rewrite IH, andb_true_r.
  destruct (is_word c) eqn:W; [rewrite W; reflexivity|].
  apply orb_true_r.
Qed.

Lemma all_chars_collapse_dashes (p : ascii -> bool) (s : string) :
  all_chars p s = true -> all_chars p (collapse_dashes s) = true.
Proof.
  induction s as [|c rest IH]; simpl; [reflexivity|].
  intros H. apply andb_true_iff in H as [Hc Hrest].
  specialize (IH Hrest).
  destruct (is_dash c).
  - destruct rest as [|d r]; [simpl; rewrite Hc; reflexivity|].
    destruct (is_dash d); [exact IH|].
    change (p c && all_chars p (collapse_dashes (String d r)) = true).
    rewrite Hc, IH. reflexivity.
  - change (p c && all_chars p (collapse_dashes rest) = true).
    rewrite Hc, IH. reflexivity.
Qed.

Lemma starts_with_dash_collapse (s : string) :
  starts_with_dash (collapse_dashes s) = starts_with_dash s.
Proof.
  induction s as [|c rest IH]; simpl; [reflexivity|].
  destruct (is_dash c) eqn:C.
  - destruct rest as [|d r]; [simpl; exact C|].
    destruct (is_dash d) eqn:D.
    + rewrite IH. simpl. exact D.
    + simpl. exact C.
  - simpl. exact C.
Qed.

Lemma no_double_dash_collapse (s : string) :
  has_double_dash (collapse_dashes s) = false.
Proof.
  induction s as [|c rest IH]; simpl; [reflexivity|].
  destruct (is_dash c) eqn:C.
  - destruct rest as [|d r]; [simpl; rewrite C; reflexivity|].
    destruct (is_dash d) eqn:D; [exact IH|].
    change (is_dash c && starts_with_dash (collapse_dashes (String d r))
            || has_double_dash (collapse_dashes (String d r)) = false).
    rewrite IH, starts_with_dash_collapse. simpl. rewrite D, C. reflexivity.
  - change (is_dash c && starts_with_dash (collapse_dashes rest)
            || has_double_dash (collapse_dashes rest) = false).
    rewrite IH, C. reflexivity.
Qed.

Lemma all_chars_strip_leading (p : ascii -> bool) (s : string) :
  all_chars p s = true -> all_chars p (strip_leading_dash s) = true.
Proof.
  destruct s as [|c rest]; simpl; [reflexivity|].
  intros H. destruct (is_dash c); [|exact H].
  apply andb_true_iff in H. apply H.
Qed.

Lemma no_double_dash_strip_leading (s : string) :
  has_double_dash s = false -> has_double_dash (strip_leading_dash s) = false.
Proof.
  destruct s as [|c rest]; simpl; [reflexivity|].
  intros H. destruct (is_dash c) eqn:C; [|simpl; rewrite C; exact H].
  apply orb_false_iff in H. apply H.
Qed.

Lemma no_leading_dash_strip_leading (s : string) :
  has_double_dash s = false -> starts_with_dash (strip_leading_dash s) = false.
Proof.
  destruct s as [|c rest]; simpl; [reflexivity|].
  intros H. destruct (is_dash c) eqn:C; [|simpl; exact C].
  apply orb_false_iff in H. apply H.
Qed.

Lemma all_chars_strip_trailing (p : ascii -> bool) (s : string) :
  all_chars p s = true -> all_chars p (strip_trailing_dash s) = true.
Proof.
  induction s as [|c rest IH]; [reflexivity|].
  intros H. simpl in H. apply andb_true_iff in H as [Hc Hrest].
  destruct rest as [|d r].
  - simpl. destruct (is_dash c); simpl; [reflexivity|rewrite Hc; reflexivity].
  - change (p c && all_chars p (strip_trailing_dash (String d r)) = true).
    rewrite Hc, (IH Hrest). reflexivity.
Qed.

Lemma starts_with_dash_strip_trailing (s : string) :
  starts_with_dash s = false -> starts_with_dash (strip_trailing_dash s) = false.
Proof.
  destruct s as [|c [|d r]]; simpl; intros H; [reflexivity| |exact H].
  rewrite H. simpl. exact H.
Qed.

(** Stripping the trailing dash does not bring a dash to the front of what
    follows a dash. *)
Lemma starts_with_dash_strip_trailing_le (s : string) :
  starts_with_dash (strip_trailing_dash s) = true -> starts_with_dash s = true.
Proof.
  destruct s as [|c [|d r]]; simpl; intros H; [discriminate| |exact H].
  destruct (is_dash c) eqn:C; [reflexivity|simpl in H; congruence].
Qed.

Lemma no_double_dash_strip_trailing (s : string) :
  has_double_dash s = false -> has_double_dash (strip_trailing_dash s) = false.
Proof.
  induction s as [|c rest IH]; [reflexivity|].
  intros H. simpl in H. apply orb_false_iff in H as [Hc Hrest].
  destruct rest as [|d r].
  - simpl. destruct (is_dash c); simpl; [reflexivity|].
    rewrite andb_false_r. reflexivity.
  - change (is_dash c && starts_with_dash (strip_trailing_dash (String d r))
            || has_double_dash (strip_trailing_dash (String d r)) = false).
    rewrite (IH Hrest), orb_false_r.
    destruct (is_dash c); [|reflexivity].
    rewrite andb_true_l in Hc |- *.
    destruct (starts_with_dash (strip_trailing_dash (String d r))) eqn:E;
      [|reflexivity].
    apply starts_with_dash_strip_trailing_le in E. congruence.
Qed.

Lemma no_trailing_dash_strip_trailing (s : string) :
  has_double_dash s = false -> ends_with_dash (strip_trailing_dash s) = false.
Proof.
  induction s as [|c rest IH]; [reflexivity|].
  intros H. simpl in H. apply orb_false_iff in H as [Hc Hrest].
  destruct rest as [|d r].
  - simpl. destruct (is_dash c) eqn:C; simpl; [reflexivity|exact C].
  - specialize (IH Hrest).
    change (ends_with_dash (String c (strip_trailing_dash (String d r))) = false).
    destruct (strip_trailing_dash (String d r)) as [|e t] eqn:E.
    + (* the rest was a single dash, so [c] is not one *)
      simpl. destruct r as [|f r'].
      * simpl in E. destruct (is_dash d) eqn:D; [|discriminate E].
        simpl in Hc. rewrite D, andb_true_r in Hc. exact Hc.
      * discriminate E.
    + exact IH.
Qed.

Lemma all_chars_toLowerCase (s : string) :
  all_chars (fun c => is_word c || is_dash c) s = true ->
  all_chars slug_char (toLowerCase s) = true.
Proof.
  induction s as [|c rest IH]; simpl; [reflexivity|].
  intros H. apply andb_true_iff in H as [Hc Hrest].
  rewrite (lower_char_slug_char c Hc), (IH Hrest). reflexivity.
Qed.

Lemma starts_with_dash_toLowerCase (s : string) :
  starts_with_dash (toLowerCase s) = starts_with_dash s.
Proof. destruct s as [|c rest]; simpl; [reflexivity|apply lower_char_dash]. Qed.

Lemma ends_with_dash_toLowerCase (s : string) :
  ends_with_dash (toLowerCase s) = ends_with_dash s.
Proof.
  induction s as [|c rest IH]; [reflexivity|].
  destruct rest as [|d r]; [simpl; apply lower_char_dash|].
  change (ends_with_dash (toLowerCase (String d r)) = ends_with_dash (String d r)).
  exact IH.
Qed.

Lemma has_double_dash_toLowerCase (s : string) :
  has_double_dash (toLowerCase s) = has_double_dash s.
Proof.
  induction s as [|c rest IH]; simpl; [reflexivity|].
  rewrite IH, lower_char_dash, starts_with_dash_toLowerCase. reflexivity.
Qed.

Lemma toLowerCase_fixed (s : string) :
  all_chars slug_char s = true -> toLowerCase s = s.
Proof.
  induction s as [|c rest IH]; simpl; [reflexivity|].
  intros H. apply andb_true_iff in H as [Hc Hrest].
  rewrite (slug_char_lower c Hc), (IH Hrest). reflexivity.
Qed.

(** The slug of every name, whatever its characters and length. *)
Lemma deriveSlug_is_slug (name : string) :
  all_chars slug_char (deriveSlug name) = true
  /\ toLowerCase (deriveSlug name) = deriveSlug name
  /\ all_chars (fun c => negb (is_upper c)) (deriveSlug name) = true
  /\ has_double_dash (deriveSlug name) = false
  /\ starts_with_dash (deriveSlug name) = false
  /\ ends_with_dash (deriveSlug name) = false.
Proof.
  set (dashed := collapse_dashes (dash_non_word (remove_quotes name))).
  assert (Hchars : all_chars (fun c => is_word c || is_dash c) dashed = true)
    by (apply all_chars_collapse_dashes, all_chars_dash_non_word).
  assert (Hdd : has_double_dash dashed = false) by apply no_double_dash_collapse.
  assert (Hslug : all_chars slug_char (deriveSlug name) = true).
  { unfold deriveSlug. fold dashed.
    apply all_chars_toLowerCase, all_chars_strip_trailing,
      all_chars_strip_leading, Hchars. }
  split; [exact Hslug|].
  split; [apply toLowerCase_fixed, Hslug|].
  split.
  { revert Hslug. generalize (deriveSlug name) as s.
    induction s as [|c rest IH]; simpl; [reflexivity|].
    intros H. apply andb_true_iff in H as [Hc Hrest].
    rewrite (slug_char_not_upper c Hc), (IH Hrest). reflexivity. }
  unfold deriveSlug. fold dashed.
  rewrite has_double_dash_toLowerCase, starts_with_dash_toLowerCase,
    ends_with_dash_toLowerCase.
  split; [apply no_double_dash_strip_trailing, no_double_dash_strip_leading, Hdd|].
  split.
  - apply starts_with_dash_strip_trailing, no_leading_dash_strip_leading, Hdd.
  - apply no_trailing_dash_strip_trailing, no_double_dash_strip_leading, Hdd.
Qed.

(** C6: for every printable-ASCII name of at most 100 characters, the derived
    slug is lowercase (lower-casing leaves it as it is and it holds no capital
    letter), holds only characters of [[a-z0-9._-]], has no two consecutive
    dashes, and neither starts nor ends with a dash. *)
Theorem deriveSlug_printable_ascii (name : string) :
  all_chars printable name = true ->
  (String.length name <= 100)%nat ->
  toLowerCase (deriveSlug name) = deriveSlug name
  /\ all_chars (fun c => negb (is_upper c)) (deriveSlug name) = true
  /\ all_chars slug_char (deriveSlug name) = true
  /\ has_double_dash (deriveSlug name) = false
  /\ starts_with_dash (deriveSlug name) = false
  /\ ends_with_dash (deriveSlug name) = false.
Proof.
  intros _ _.
  destruct (deriveSlug_is_slug name) as (Hchars & Hlower & Hupper & Hdd & Hs & He).
  repeat split; assumption.
Qed.

Lemma deriveSlug_printable_ascii_witness :
  deriveSlug " --My  Repo's_Name!! (v2.0)-- " = "my-repos_name-v2-0"
  /\ all_chars slug_char (deriveSlug " --My  Repo's_Name!! (v2.0)-- ") = true
  /\ has_double_dash (deriveSlug " --My  Repo's_Name!! (v2.0)-- ") = false
  /\ starts_with_dash (deriveSlug " --My  Repo's_Name!! (v2.0)-- ") = false
  /\ ends_with_dash (deriveSlug " --My  Repo's_Name!! (v2.0)-- ") = false.
Proof.
  split; [reflexivity|].
  apply (deriveSlug_printable_ascii " --My  Repo's_Name!! (v2.0)-- ");
    [reflexivity | simpl; lia].
Defined.

Lemma remove_quotes_skip (before after : string) (q : ascii) :
  is_quote q = true ->
  remove_quotes (before ++ String q after) = remove_quotes (before ++ after).
Proof.
  intros Hq. induction before as [|c rest IH]; simpl.
  - rewrite Hq. reflexivity.
  - rewrite IH. reflexivity.
Qed.

(** C2, as the spec words its example: the slug of the name is not the one
    the spec gives, in which the apostrophe has become a separator. *)
Lemma deriveSlug_example_is_not_repo_s_name :
  deriveSlug "My Repo's Name!!" <> "my-repo-s-name".
Proof. vm_compute. discriminate. Qed.

(** C2, amended: an apostrophe or a double quote anywhere in a name vanishes,
    the slug being that of the name without it; so the slug of the name
    [My Repo's Name!!] is [my-repos-name]. *)
Theorem deriveSlug_quotes_vanish (before after : string) :
  deriveSlug (before ++ String apostrophe after) = deriveSlug (before ++ after)
  /\ deriveSlug (before ++ String double_quote after) = deriveSlug (before ++ after)
  /\ deriveSlug "My Repo's Name!!" = "my-repos-name".
Proof.
  unfold deriveSlug.
  rewrite !remove_quotes_skip by reflexivity.
  repeat split; reflexivity.
Qed.

(** ** The state filter of the pull-request queries *)

(** No one-character string is a state token of the enumeration. *)
Lemma one_char_not_a_state (c : ascii) :
  Lodash.includes pullRequest_states (VStr (String c "")) = false.
Proof.
  unfold Lodash.includes, pullRequest_states, Lodash.iterated. simpl.
  repeat match goal with |- context [Ascii.eqb c ?a] => destruct (Ascii.eqb c a) end;
    reflexivity.
Qed.

(** C1: on the code a single token does not reach the request. [_.find]
    walks the characters of the string it is given, the first of them is
    no state token and is truthy, so the wrapped token is replaced by
    [OPEN]: every non-empty string passed alone, [MERGED] among them, gives
    the state query value [OPEN]. *)
Theorem getPullRequests_single_token_defaults
  (api : Api.request -> completion value) (workspace repoSlug token : string)
  (sent : list Api.request) :
  token <> "" ->
  getPullRequests api pullRequest_states workspace repoSlug (VStr token) sent
  = send api
      (Api.get (pullrequests_path workspace repoSlug)
         (VObj [("state", VStr "OPEN")])) sent.
Proof.
  intros Hne. destruct token as [|c rest]; [contradiction|].
  unfold getPullRequests, Lodash.find, Lodash.iterated.
  cbn [Lodash.isArrayLike Lodash.elements list_ascii_of_string map List.find].
  rewrite one_char_not_a_state. reflexivity.
Qed.

Lemma getPullRequests_single_token_defaults_witness :
  "MERGED" <> ""
  /\ getPullRequests quiet_api pullRequest_states "ws" "repo" (VStr "MERGED") []
     = (Return VUndefined,
        [Api.get "repositories/ws/repo/pullrequests"
           (VObj [("state", VStr "OPEN")])]).
Proof.
  split; [discriminate|].
  apply (getPullRequests_single_token_defaults quiet_api "ws" "repo" "MERGED" []).
  discriminate.
Defined.

(** Where the fallback of the state filter works: an absent (falsy) state
    gives [[OPEN]], a sequence of valid tokens is kept in its order, and a
    sequence whose first invalid token is truthy gives [[OPEN]]. *)
Lemma getPullRequests_absent_state
  (api : Api.request -> completion value) (states : value)
  (workspace repoSlug : string) (state : value) (sent : list Api.request) :
  truthy state = false ->
  getPullRequests api states workspace repoSlug state sent
  = send api
      (Api.get (pullrequests_path workspace repoSlug)
         (VObj [("state", VStr (join [OPEN states] ","))])) sent.
Proof.
  intros Hfalsy. unfold getPullRequests. rewrite Hfalsy. cbn [negb].
  destruct state as [| |b|n|s|elems|props]; try discriminate Hfalsy;
    try reflexivity.
  simpl in Hfalsy. apply negb_false_iff, String.eqb_eq in Hfalsy. subst s.
  reflexivity.
Qed.

Lemma getPullRequests_valid_sequence
  (api : Api.request -> completion value) (states : value)
  (workspace repoSlug : string) (elems : list value)
  (sent : list Api.request) :
  forallb (Lodash.includes states) elems = true ->
  getPullRequests api states workspace repoSlug (VArr elems) sent
  = send api
      (Api.get (pullrequests_path workspace repoSlug)
         (VObj [("state", VStr (join elems ","))])) sent.
Proof.
  intros Hvalid. unfold getPullRequests, Lodash.find, Lodash.iterated.
  cbn [Lodash.isArrayLike Lodash.elements truthy negb].
  destruct (List.find _ elems) as [found|] eqn:F; [|reflexivity].
  apply find_some in F as [Hin Hinvalid].
  rewrite forallb_forall in Hvalid. rewrite (Hvalid found Hin) in Hinvalid.
  discriminate Hinvalid.
Qed.

Lemma getPullRequests_truthy_invalid
  (api : Api.request -> completion value) (states : value)
  (workspace repoSlug : string) (valid rest : list value) (invalid : value)
  (sent : list Api.request) :
  forallb (Lodash.includes states) valid = true ->
  Lodash.includes states invalid = false ->
  truthy invalid = true ->
  getPullRequests api states workspace repoSlug
    (VArr (valid ++ invalid :: rest)) sent
  = send api
      (Api.get (pullrequests_path workspace repoSlug)
         (VObj [("state", VStr (join [OPEN states] ","))])) sent.
Proof.
  intros Hvalid Hinvalid Htruthy.
  unfold getPullRequests, Lodash.find, Lodash.iterated.
  cbn [Lodash.isArrayLike Lodash.elements truthy negb].
  assert (F : List.find
                (fun stateElement => negb (Lodash.includes states stateElement))
                (valid ++ invalid :: rest) = Some invalid).
  { induction valid as [|v more IH]; simpl.
    - rewrite Hinvalid. reflexivity.
    - simpl in Hvalid. apply andb_true_iff in Hvalid as [Hv Hmore].
      rewrite Hv. simpl. exact (IH Hmore). }
  rewrite F, Htruthy. reflexivity.
Qed.

(** C3: on the code a sequence whose only invalid token is the empty string
    is not replaced by [[OPEN]]: [_.find] returns the invalid token itself,
    which is falsy, and the state query value is the join of the sequence. *)
Theorem getPullRequests_empty_token_kept
  (api : Api.request -> completion value) (workspace repoSlug : string)
  (sent : list Api.request) :
  Lodash.includes pullRequest_states (VStr "") = false
  /\ getPullRequests api pullRequest_states workspace repoSlug
       (VArr [VStr ""]) sent
     = send api
         (Api.get (pullrequests_path workspace repoSlug)
            (VObj [("state", VStr "")])) sent
  /\ getPullRequests api pullRequest_states workspace repoSlug
       (VArr [VStr ""; VStr "BOGUS"]) sent
     = send api
         (Api.get (pullrequests_path workspace repoSlug)
            (VObj [("state", VStr ",BOGUS")])) sent.
Proof. repeat split; reflexivity. Qed.

Lemma find_falsy (states : value) (elems : list value) :
  (forall e, In e elems -> Lodash.includes states e = false -> truthy e = false) ->
  truthy (Lodash.find (VArr elems)
            (fun stateElement => negb (Lodash.includes states stateElement)))
  = false.
Proof.
  intros Hfalsy. unfold Lodash.find, Lodash.iterated. simpl.
  destruct (List.find _ elems) as [found|] eqn:F; [|reflexivity].
  apply find_some in F as [Hin Hinvalid].
  apply Hfalsy; [exact Hin|].
  apply negb_true_iff. exact Hinvalid.
Qed.

(** C9: for every sequence passed as the state whose elements outside the
    enumeration are all falsy, the fallback does not trigger: the sequence is
    kept as it is and its comma-join is the state query value. *)
Theorem getPullRequests_falsy_invalid_kept
  (api : Api.request -> completion value) (states : value)
  (workspace repoSlug : string) (elems : list value)
  (sent : list Api.request) :
  (forall e, In e elems -> Lodash.includes states e = false -> truthy e = false) ->
  getPullRequests api states workspace repoSlug (VArr elems) sent
  = send api
      (Api.get (pullrequests_path workspace repoSlug)
         (VObj [("state", VStr (join elems ","))])) sent.
Proof.
  intros Hfalsy. unfold getPullRequests.
  rewrite (find_falsy states elems Hfalsy). reflexivity.
Qed.

Lemma getPullRequests_falsy_invalid_kept_witness :
  getPullRequests quiet_api pullRequest_states "ws" "repo"
    (VArr [VStr "MERGED"; VStr ""; VNull; VStr "OPEN"]) []
  = (Return VUndefined,
     [Api.get "repositories/ws/repo/pullrequests"
        (VObj [("state", VStr "MERGED,,,OPEN")])]).
Proof.
  apply (getPullRequests_falsy_invalid_kept quiet_api pullRequest_states
           "ws" "repo" [VStr "MERGED"; VStr ""; VNull; VStr "OPEN"] []).
  intros e Hin Hinvalid. simpl in Hin.
  destruct Hin as [<-|[<-|[<-|[<-|[]]]]];
    first [reflexivity | discriminate Hinvalid].
Defined.


(** C10: for every state argument, read as [options.state], the two
    pull-request queries compute the same state query value, whenever the
    second one has a fields list to go on with. *)
Theorem pull_request_queries_same_state
  (api : Api.request -> completion value) (states : value)
  (workspace repoSlug : string) (options : value) (fields : list value)
  (sent : list Api.request) :
  prop options "fields" = VArr fields ->
  fields <> [] ->
  exists stateValue fieldsValue,
    getPullRequests api states workspace repoSlug (prop options "state") sent
    = send api
        (Api.get (pullrequests_path workspace repoSlug)
           (VObj [("state", VStr stateValue)])) sent
    /\ getPullRequestsWithFields api states workspace repoSlug options sent
       = send api
           (Api.get (pullrequests_path workspace repoSlug)
              (VObj [("state", VStr stateValue);
                     ("fields", VStr fieldsValue)])) sent.
Proof.
  intros Hfields Hne.
  destruct options; try discriminate Hfields.
  unfold getPullRequests, getPullRequestsWithFields.
  rewrite Hfields.
  destruct fields as [|field rest]; [contradiction|].
  cbn [List.length Nat.ltb Nat.leb].
  eexists. eexists. split; reflexivity.
Qed.

Lemma pull_request_queries_same_state_witness :
  exists stateValue fieldsValue,
    getPullRequests quiet_api pullRequest_states "ws" "repo"
      (prop (VObj [("state", VArr [VStr "MERGED"; VStr "DECLINED"]);
                   ("fields", VArr [VStr "values.id"])]) "state") []
    = send quiet_api
        (Api.get (pullrequests_path "ws" "repo")
           (VObj [("state", VStr stateValue)])) []
    /\ getPullRequestsWithFields quiet_api pullRequest_states "ws" "repo"
         (VObj [("state", VArr [VStr "MERGED"; VStr "DECLINED"]);
                ("fields", VArr [VStr "values.id"])]) []
       = send quiet_api
           (Api.get (pullrequests_path "ws" "repo")
              (VObj [("state", VStr stateValue);
                     ("fields", VStr fieldsValue)])) [].
Proof.
  apply (pull_request_queries_same_state quiet_api pullRequest_states
           "ws" "repo"
           (VObj [("state", VArr [VStr "MERGED"; VStr "DECLINED"]);
                  ("fields", VArr [VStr "values.id"])])
           [VStr "values.id"] []);
    [reflexivity | discriminate].
Defined.

(** ** Errors raised before any request *)

(** A request always extends the list of the requests made, so a completion
    that leaves the list as it was made none. *)
Lemma send_extends (api : Api.request -> completion value) (r : Api.request)
  (sent : list Api.request) (c : completion value) :
  send api r sent <> (c, sent).
Proof.
  unfold send. intros H. injection H as _ H.
  apply (f_equal (@List.length Api.request)) in H.
  rewrite length_app in H. simpl in H. lia.
Qed.

Lemma join_plus_fields (fieldList : list value) :
  join (map (fun field => VStr ("+" ++ ToString field)) fieldList) ","
  = String.concat "," (map (fun field => "+" ++ ToString field) fieldList).
Proof. unfold join. rewrite map_map. reflexivity. Qed.

(** C5: [getPullRequestsWithFields] throws without making a request exactly
    when [fields] is not an array or is the empty array (the error is the
    method's own unless the options are [null], which cannot be destructured);
    otherwise the fields query value is every field prefixed with [+], joined
    with commas. *)
Theorem getPullRequestsWithFields_fields
  (api : Api.request -> completion value) (states : value)
  (workspace repoSlug : string) (options : value) (sent : list Api.request) :
  ((exists e, getPullRequestsWithFields api states workspace repoSlug options sent
              = (Throw e, sent))
   <-> (Lodash.isArray (prop options "fields") = false
        \/ prop options "fields" = VArr []))
  /\ (options <> VNull ->
      Lodash.isArray (prop options "fields") = false
      \/ prop options "fields" = VArr [] ->
      getPullRequestsWithFields api states workspace repoSlug options sent
      = (Throw fields_error, sent))
  /\ (forall fieldList,
        prop options "fields" = VArr fieldList ->
        fieldList <> [] ->
        exists stateValue,
          getPullRequestsWithFields api states workspace repoSlug options sent
          = send api
              (Api.get (pullrequests_path workspace repoSlug)
                 (VObj [("state", VStr stateValue);
                        ("fields",
                         VStr (String.concat ","
                                 (map (fun field => "+" ++ ToString field)
                                    fieldList)))])) sent).
Proof.
  assert (Hsend : forall fieldList,
             prop options "fields" = VArr fieldList -> fieldList <> [] ->
             exists stateValue,
               getPullRequestsWithFields api states workspace repoSlug options sent
               = send api
                   (Api.get (pullrequests_path workspace repoSlug)
                      (VObj [("state", VStr stateValue);
                             ("fields",
                              VStr (String.concat ","
                                      (map (fun field => "+" ++ ToString field)
                                         fieldList)))])) sent).
  { intros fieldList Hfields Hne.
    destruct options; try discriminate Hfields.
    unfold getPullRequestsWithFields. rewrite Hfields.
    destruct fieldList as [|field rest]; [contradiction|].
    cbn [List.length Nat.ltb Nat.leb].
    rewrite join_plus_fields. eexists. reflexivity. }
  assert (Hthrow : options <> VNull ->
             Lodash.isArray (prop options "fields") = false
             \/ prop options "fields" = VArr [] ->
             getPullRequestsWithFields api states workspace repoSlug options sent
             = (Throw fields_error, sent)).
  { intros Hnull Hmissing. unfold getPullRequestsWithFields.
    destruct options; try contradiction; try reflexivity.
    destruct Hmissing as [Hnot|Hempty].
    - destruct (prop (VObj props) "fields"); try discriminate Hnot; reflexivity.
    - rewrite Hempty. reflexivity. }
  split; [|split; assumption].
  split.
  - intros [e He].
    destruct (prop options "fields") as [| | | | |fieldList|] eqn:Hfields;
      try (left; reflexivity).
    destruct fieldList as [|field rest]; [right; reflexivity|].
    destruct (Hsend (field :: rest) eq_refl) as [stateValue Hrun];
      [discriminate|].
    rewrite Hrun in He. exfalso. exact (send_extends _ _ _ _ He).
  - intros Hmissing.
    destruct options;
      try (eexists; apply Hthrow; [discriminate|exact Hmissing]).
    eexists. reflexivity.
Qed.

Lemma getPullRequestsWithFields_fields_witness :
  getPullRequestsWithFields quiet_api pullRequest_states "ws" "repo"
    (VObj [("fields", VArr [])]) []
  = (Throw fields_error, [])
  /\ exists stateValue,
       getPullRequestsWithFields quiet_api pullRequest_states "ws" "repo"
         (VObj [("fields", VArr [VStr "values.title"; VStr "values.id"])]) []
       = send quiet_api
           (Api.get (pullrequests_path "ws" "repo")
              (VObj [("state", VStr stateValue);
                     ("fields", VStr "+values.title,+values.id")])) [].
Proof.
  split.
  - apply (getPullRequestsWithFields_fields quiet_api pullRequest_states
             "ws" "repo" (VObj [("fields", VArr [])]) []);
      [discriminate | right; reflexivity].
  - destruct (getPullRequestsWithFields_fields quiet_api pullRequest_states
                "ws" "repo"
                (VObj [("fields", VArr [VStr "values.title"; VStr "values.id"])])
                []) as (_ & _ & Hsend).
    apply (Hsend [VStr "values.title"; VStr "values.id"]);
      [reflexivity | discriminate].
Defined.

(** What [create] does with a repo that passes its check. *)
Lemma create_post
  (api : Api.request -> completion value) (workspace : string) (repo : value)
  (sent : list Api.request) (name : string) (isPrivate : bool) :
  prop repo "name" = VStr name ->
  prop repo "is_private" = VBool isPrivate ->
  create api workspace repo sent
  = send api
      (Api.post
         ("repositories/" ++ encodeURI workspace ++ "/"
            ++ encodeURI (deriveSlug name))
         repo) sent.
Proof.
  intros Hname Hprivate.
  destruct repo; try discriminate Hname.
  unfold create. rewrite Hname, Hprivate. reflexivity.
Qed.

(** C4, as the spec words it: a repo whose name is the empty string has a
    name that is not a non-empty string, and [create] does not throw on it. *)
Lemma create_empty_name_not_refused :
  ~ ((exists e,
        create quiet_api "ws"
          (VObj [("name", VStr ""); ("is_private", VBool true)]) []
        = (Throw e, []))
     <-> (truthy (VObj [("name", VStr ""); ("is_private", VBool true)]) = false
          \/ (forall name,
                prop (VObj [("name", VStr ""); ("is_private", VBool true)]) "name"
                = VStr name -> name = "")
          \/ Lodash.isBoolean
               (prop (VObj [("name", VStr ""); ("is_private", VBool true)])
                  "is_private") = false)).
Proof.
  intros [_ Hraise].
  destruct Hraise as [e He].
  - right. left. intros name Hname. injection Hname as <-. reflexivity.
  - discriminate He.
Qed.

(** C4, amended: [create] throws its error, without making a request,
    exactly when the repo is missing (falsy), its name is not a string, or its
    privacy flag is not a boolean; any string is accepted as a name, the
    empty one too, and the repo is then posted to the path of the workspace
    and of the slug of the name. *)
Theorem create_refuses
  (api : Api.request -> completion value) (workspace : string) (repo : value)
  (sent : list Api.request) :
  ((exists e, create api workspace repo sent = (Throw e, sent))
   <-> (truthy repo = false
        \/ Lodash.isString (prop repo "name") = false
        \/ Lodash.isBoolean (prop repo "is_private") = false))
  /\ (truthy repo = false
      \/ Lodash.isString (prop repo "name") = false
      \/ Lodash.isBoolean (prop repo "is_private") = false ->
      create api workspace repo sent = (Throw create_error, sent))
  /\ (forall name isPrivate,
        prop repo "name" = VStr name ->
        prop repo "is_private" = VBool isPrivate ->
        create api workspace repo sent
        = send api
            (Api.post
               ("repositories/" ++ encodeURI workspace ++ "/"
                  ++ encodeURI (deriveSlug name))
               repo) sent).
Proof.
  assert (Hthrow : truthy repo = false
             \/ Lodash.isString (prop repo "name") = false
             \/ Lodash.isBoolean (prop repo "is_private") = false ->
             create api workspace repo sent = (Throw create_error, sent)).
  { intros Hbad. unfold create.
    destruct (truthy repo); [|reflexivity].
    destruct (Lodash.isBoolean (prop repo "is_private")); [|reflexivity].
    destruct (Lodash.isString (prop repo "name")); [|reflexivity].
    destruct Hbad as [H|[H|H]]; discriminate H. }
  assert (Hpost : forall name isPrivate,
             prop repo "name" = VStr name ->
             prop repo "is_private" = VBool isPrivate ->
             create api workspace repo sent
             = send api
                 (Api.post
                    ("repositories/" ++ encodeURI workspace ++ "/"
                       ++ encodeURI (deriveSlug name))
                    repo) sent)
    by (intros name isPrivate; apply create_post).
  split; [|split; assumption].
  split; [|intros Hbad; eexists; apply Hthrow, Hbad].
  intros [e He].
  destruct (truthy repo) eqn:Htruthy; [|left; reflexivity].
  destruct (prop repo "name") as [| | | |name| |] eqn:Hname;
    try (right; left; reflexivity).
  destruct (prop repo "is_private") as [| |isPrivate| | | |] eqn:Hprivate;
    try (right; right; reflexivity).
  rewrite (Hpost name isPrivate eq_refl eq_refl) in He.
  exfalso. exact (send_extends _ _ _ _ He).
Qed.

Lemma create_refuses_witness :
  create quiet_api "ws" (VObj [("name", VStr "My Repo")]) []
  = (Throw create_error, [])
  /\ create quiet_api "my team"
       (VObj [("name", VStr ""); ("is_private", VBool true)]) []
     = send quiet_api
         (Api.post ("repositories/" ++ encodeURI "my team" ++ "/"
                      ++ encodeURI (deriveSlug ""))
            (VObj [("name", VStr ""); ("is_private", VBool true)])) [].
Proof.
  split.
  - apply (create_refuses quiet_api "ws" (VObj [("name", VStr "My Repo")]) []).
    right. right. reflexivity.
  - destruct (create_refuses quiet_api "my team"
                (VObj [("name", VStr ""); ("is_private", VBool true)]) [])
      as (_ & _ & Hpost).
    apply (Hpost "" true); reflexivity.
Defined.

(** C8, as the spec words it: a response whose [links.forks.href] is the
    empty string holds the nested field, and the accessor fails on it. *)
Lemma getForksFromResponse_empty_href_refused :
  ~ ((exists e,
        getForksFromResponse quiet_api responseBody
          (VObj [("links", VObj [("forks", VObj [("href", VStr "")])])]) []
        = (Throw e, []))
     <-> Lodash.get
           (responseBody
              (VObj [("links", VObj [("forks", VObj [("href", VStr "")])])]))
           ["links"; "forks"; "href"] = VUndefined).
Proof.
  intros [Habsent _].
  assert (H : Lodash.get
                (responseBody
                   (VObj [("links", VObj [("forks", VObj [("href", VStr "")])])]))
                ["links"; "forks"; "href"] = VUndefined)
    by (apply Habsent; eexists; reflexivity).
  discriminate H.
Qed.

(** C8, amended: [getForksFromResponse] reads [links.forks.href] in the body
    of the response; it throws its error, without making a request, exactly
    when what it read is falsy (absent, or for instance the empty string);
    otherwise it hands the URL to [api.request.doPrebuiltSend] and returns
    what that returns. *)
Theorem getForksFromResponse_link
  (api : Api.request -> completion value)
  (extractResponseBody : value -> value) (response : value)
  (sent : list Api.request) :
  ((exists e, getForksFromResponse api extractResponseBody response sent
              = (Throw e, sent))
   <-> truthy (Lodash.get (extractResponseBody response)
                 ["links"; "forks"; "href"]) = false)
  /\ (truthy (Lodash.get (extractResponseBody response)
                ["links"; "forks"; "href"]) = false ->
      getForksFromResponse api extractResponseBody response sent
      = (Throw forks_error, sent))
  /\ (truthy (Lodash.get (extractResponseBody response)
                ["links"; "forks"; "href"]) = true ->
      getForksFromResponse api extractResponseBody response sent
      = (api (Api.doPrebuiltSend
                (Lodash.get (extractResponseBody response)
                   ["links"; "forks"; "href"])),
         (sent ++ [Api.doPrebuiltSend
                     (Lodash.get (extractResponseBody response)
                        ["links"; "forks"; "href"])])%list)).
Proof.
  unfold getForksFromResponse.
  destruct (truthy (Lodash.get (extractResponseBody response)
                      ["links"; "forks"; "href"])) eqn:Htruthy;
    cbn [negb].
  - split; [|split; [discriminate|reflexivity]].
    split; [|discriminate].
    intros [e He]. exfalso. exact (send_extends _ _ _ _ He).
  - split; [|split; [reflexivity|discriminate]].
    split; [reflexivity|]. intros _. eexists. reflexivity.
Qed.

Lemma getForksFromResponse_link_witness :
  getForksFromResponse quiet_api responseBody (VObj []) []
  = (Throw forks_error, [])
  /\ getForksFromResponse quiet_api responseBody
       (VObj [("body",
               VObj [("links", VObj [("forks", VObj [("href", VStr "X")])])])])
       []
     = (Return VUndefined, [Api.doPrebuiltSend (VStr "X")]).
Proof.
  split.
  - apply (getForksFromResponse_link quiet_api responseBody (VObj []) []).
    reflexivity.
  - destruct (getForksFromResponse_link quiet_api responseBody
                (VObj [("body",
                        VObj [("links",
                               VObj [("forks", VObj [("href", VStr "X")])])])])
                []) as (_ & _ & Hsend).
    apply Hsend. reflexivity.
Defined.

(** ** Identifiers in the request paths *)

Lemma all_chars_app (p : ascii -> bool) (a b : string) :
  all_chars p (a ++ b) = all_chars p a && all_chars p b.
Proof.
  induction a as [|c rest IH]; simpl; [reflexivity|].
  rewrite IH, andb_assoc. reflexivity.
Qed.

Lemma percent_utf8_app (c : ascii) (tail : string) :
  percent_utf8 c tail = percent_utf8 c "" ++ tail.
Proof.
  unfold percent_utf8. destruct (code c <? 128)%nat; reflexivity.
Qed.

Lemma percent_utf8_chars (c : ascii) :
  all_chars uri_char (percent_utf8 c "") = true.
Proof. destruct c as [[] [] [] [] [] [] [] []]; vm_compute; reflexivity. Qed.

Lemma encodeURI_chars (s : string) :
  all_chars uri_char (encodeURI s) = true.
Proof.
  induction s as [|c rest IH]; simpl; [reflexivity|].
  destruct (encodeURI_keeps c) eqn:K.
  - simpl. unfold uri_char at 1. rewrite K, IH. reflexivity.
  - rewrite percent_utf8_app, all_chars_app, percent_utf8_chars, IH.
    reflexivity.
Qed.


Lemma append_assoc (a b c : string) : (a ++ b) ++ c = a ++ b ++ c.
Proof. induction a as [|x rest IH]; simpl; [|rewrite IH]; reflexivity. Qed.

Lemma encodeURI_app (a b : string) :
  encodeURI (a ++ b) = encodeURI a ++ encodeURI b.
Proof.
  induction a as [|c rest IH]; simpl; [reflexivity|].
  rewrite IH. destruct (encodeURI_keeps c); [reflexivity|].
  rewrite (percent_utf8_app c (encodeURI rest ++ encodeURI b)),
    (percent_utf8_app c (encodeURI rest)), append_assoc.
  reflexivity.
Qed.



Section EscapeFacts.
Local Open Scope nat_scope.


End EscapeFacts.




Section UnitFacts.





End UnitFacts.














(** * Further properties of the methods *)

(** ** More on the slug *)

Section MoreCharacterFacts.

Local Open Scope nat_scope.

Lemma lower_char_derived_char (c : ascii) :
  is_word c || is_dash c = true -> derived_char (lower_char c) = true.
Proof.
  destruct c as [[] [] [] [] [] [] [] []]; vm_compute; intros H;
    first [reflexivity | discriminate H].
Qed.

Lemma derived_char_slug_char (c : ascii) :
  derived_char c = true -> slug_char c = true.
Proof.
  destruct c as [[] [] [] [] [] [] [] []]; vm_compute; intros H;
    first [reflexivity | discriminate H].
Qed.

Lemma derived_char_not_quote (c : ascii) :
  derived_char c = true -> is_quote c = false.
Proof.
  destruct c as [[] [] [] [] [] [] [] []]; vm_compute; intros H;
    first [reflexivity | discriminate H].
Qed.

Lemma derived_char_word_or_dash (c : ascii) :
  derived_char c = true -> (if is_word c then c else "-"%char) = c.
Proof.
  destruct c as [[] [] [] [] [] [] [] []]; vm_compute; intros H;
    first [reflexivity | discriminate H].
Qed.

Lemma derived_char_kept (c : ascii) :
  derived_char c = true -> encodeURI_keeps c = true.
Proof.
  destruct c as [[] [] [] [] [] [] [] []]; vm_compute; intros H;
    first [reflexivity | discriminate H].
Qed.

Lemma lower_char_quote (c : ascii) : is_quote (lower_char c) = is_quote c.
Proof. destruct c as [[] [] [] [] [] [] [] []]; reflexivity. Qed.

Lemma lower_char_word (c : ascii) : is_word (lower_char c) = is_word c.
Proof. destruct c as [[] [] [] [] [] [] [] []]; reflexivity. Qed.

Lemma lower_char_idempotent (c : ascii) :
  lower_char (lower_char c) = lower_char c.
Proof. destruct c as [[] [] [] [] [] [] [] []]; reflexivity. Qed.

Lemma quote_is_not_word (c : ascii) : is_quote c = true -> is_word c = false.
Proof.
  destruct c as [[] [] [] [] [] [] [] []]; vm_compute; intros H;
    first [reflexivity | discriminate H].
Qed.

End MoreCharacterFacts.

Lemma all_chars_weaken (p q : ascii -> bool) (s : string) :
  (forall c, p c = true -> q c = true) ->
  all_chars p s = true -> all_chars q s = true.
Proof.
  intros Hpq. induction s as [|c rest IH]; simpl; [reflexivity|].
  intros H. apply andb_true_iff in H as [Hc Hrest].
  rewrite (Hpq c Hc), (IH Hrest). reflexivity.
Qed.

Lemma all_chars_toLowerCase_derived (s : string) :
  all_chars (fun c => is_word c || is_dash c) s = true ->
  all_chars derived_char (toLowerCase s) = true.
Proof.
  induction s as [|c rest IH]; simpl; [reflexivity|].
  intros H. apply andb_true_iff in H as [Hc Hrest].
  rewrite (lower_char_derived_char c Hc), (IH Hrest). reflexivity.
Qed.

Lemma deriveSlug_derived_chars (name : string) :
  all_chars derived_char (deriveSlug name) = true.
Proof.
  unfold deriveSlug.
  apply all_chars_toLowerCase_derived, all_chars_strip_trailing,
    all_chars_strip_leading, all_chars_collapse_dashes,
    all_chars_dash_non_word.
Qed.

(** X1: the slug of every name is made of lowercase letters, digits,
    underscores and dashes only; a dot of the name never survives. *)
Theorem deriveSlug_never_has_dot (name : string) :
  all_chars derived_char (deriveSlug name) = true
  /\ all_chars (fun c => negb (Nat.eqb (code c) 46)) (deriveSlug name) = true.
Proof.
  split; [apply deriveSlug_derived_chars|].
  apply (all_chars_weaken derived_char); [|apply deriveSlug_derived_chars].
  intros c. destruct c as [[] [] [] [] [] [] [] []]; vm_compute; intros H;
    first [reflexivity | discriminate H].
Qed.

Lemma remove_quotes_none (s : string) :
  all_chars derived_char s = true -> remove_quotes s = s.
Proof.
  induction s as [|c rest IH]; simpl; [reflexivity|].
  intros H. apply andb_true_iff in H as [Hc Hrest].
  rewrite (derived_char_not_quote c Hc), (IH Hrest). reflexivity.
Qed.

Lemma dash_non_word_none (s : string) :
  all_chars derived_char s = true -> dash_non_word s = s.
Proof.
  induction s as [|c rest IH]; simpl; [reflexivity|].
  intros H. apply andb_true_iff in H as [Hc Hrest].
  rewrite (derived_char_word_or_dash c Hc), (IH Hrest). reflexivity.
Qed.

Lemma collapse_dashes_none (s : string) :
  has_double_dash s = false -> collapse_dashes s = s.
Proof.
  induction s as [|c rest IH]; [reflexivity|].
  intros H. simpl in H. apply orb_false_iff in H as [Hc Hrest].
  specialize (IH Hrest). simpl.
  destruct (is_dash c) eqn:C.
  - destruct rest as [|d r]; [reflexivity|].
    simpl in Hc. rewrite Hc. rewrite IH. reflexivity.
  - rewrite IH. reflexivity.
Qed.

Lemma strip_leading_dash_none (s : string) :
  starts_with_dash s = false -> strip_leading_dash s = s.
Proof.
  destruct s as [|c rest]; simpl; [reflexivity|].
  intros H. rewrite H. reflexivity.
Qed.

Lemma strip_trailing_dash_none (s : string) :
  ends_with_dash s = false -> strip_trailing_dash s = s.
Proof.
  induction s as [|c rest IH]; [reflexivity|].
  destruct rest as [|d r].
  - simpl. intros H. rewrite H. reflexivity.
  - intros H.
    change (String c (strip_trailing_dash (String d r)) = String c (String d r)).
    rewrite (IH H). reflexivity.
Qed.

Lemma deriveSlug_keeps_slug (s : string) :
  all_chars derived_char s = true ->
  has_double_dash s = false ->
  starts_with_dash s = false ->
  ends_with_dash s = false ->
  deriveSlug s = s.
Proof.
  intros Hchars Hdd Hstart Hend. unfold deriveSlug.
  rewrite (remove_quotes_none s Hchars), (dash_non_word_none s Hchars),
    (collapse_dashes_none s Hdd), (strip_leading_dash_none s Hstart),
    (strip_trailing_dash_none s Hend).
  apply toLowerCase_fixed.
  apply (all_chars_weaken derived_char); [exact derived_char_slug_char|exact Hchars].
Qed.

(** X2: a name that is already a slug of the derived form (characters of
    [[a-z0-9_-]], no two dashes in a row, no dash at either end) is its own
    slug. *)
Theorem deriveSlug_of_slug (s : string) :
  all_chars derived_char s = true ->
  has_double_dash s = false ->
  starts_with_dash s = false ->
  ends_with_dash s = false ->
  deriveSlug s = s.
Proof. exact (deriveSlug_keeps_slug s). Qed.

Lemma deriveSlug_of_slug_witness :
  deriveSlug "my-repo_2-final" = "my-repo_2-final".
Proof.
  apply (deriveSlug_of_slug "my-repo_2-final"); reflexivity.
Defined.

(** X3: deriving a slug is idempotent: the slug of a slug is that slug. *)
Theorem deriveSlug_idempotent (name : string) :
  deriveSlug (deriveSlug name) = deriveSlug name.
Proof.
  destruct (deriveSlug_is_slug name) as (_ & _ & _ & Hdd & Hstart & Hend).
  apply deriveSlug_keeps_slug;
    [apply deriveSlug_derived_chars | assumption | assumption | assumption].
Qed.

Lemma strip_leading_collapse_dash (d : string) :
  strip_leading_dash (collapse_dashes (String "-" d))
  = strip_leading_dash (collapse_dashes d).
Proof.
  destruct d as [|e r]; [reflexivity|].
  change (collapse_dashes (String "-" (String e r)))
    with (if is_dash e then collapse_dashes (String e r)
          else String "-" (collapse_dashes (String e r))).
  destruct (is_dash e) eqn:E; [reflexivity|].
  change (strip_leading_dash (String "-" (collapse_dashes (String e r))))
    with (collapse_dashes (String e r)).
  symmetry. apply strip_leading_dash_none.
  rewrite starts_with_dash_collapse. exact E.
Qed.

Lemma deriveSlug_skips_first (c : ascii) (name : string) :
  is_word c = false -> deriveSlug (String c name) = deriveSlug name.
Proof.
  intros Hc. unfold deriveSlug. simpl remove_quotes.
  destruct (is_quote c); [reflexivity|].
  simpl dash_non_word. rewrite Hc.
  rewrite strip_leading_collapse_dash. reflexivity.
Qed.

Lemma deriveSlug_skips_prefix (prefix name : string) :
  all_chars (fun c => negb (is_word c)) prefix = true ->
  deriveSlug (prefix ++ name) = deriveSlug name.
Proof.
  induction prefix as [|c rest IH]; simpl; [reflexivity|].
  intros H. apply andb_true_iff in H as [Hc Hrest].
  apply negb_true_iff in Hc.
  rewrite (deriveSlug_skips_first c (rest ++ name) Hc). exact (IH Hrest).
Qed.

(** X4: whatever stands in front of a name without being a letter, a digit
    or an underscore (spaces, punctuation, quotes, dashes) leaves no trace in
    the slug. *)
Theorem deriveSlug_ignores_leading (prefix name : string) :
  all_chars (fun c => negb (is_word c)) prefix = true ->
  deriveSlug (prefix ++ name) = deriveSlug name.
Proof. exact (deriveSlug_skips_prefix prefix name). Qed.

Lemma deriveSlug_ignores_leading_witness :
  deriveSlug ("  --'(" ++ "Repo One") = deriveSlug "Repo One".
Proof.
  apply (deriveSlug_ignores_leading "  --'(" "Repo One"). reflexivity.
Defined.

Lemma append_empty (s : string) : s ++ "" = s.
Proof. induction s as [|c rest IH]; simpl; [|rewrite IH]; reflexivity. Qed.

Lemma deriveSlug_no_word (name : string) :
  all_chars (fun c => negb (is_word c)) name = true -> deriveSlug name = "".
Proof.
  intros H. rewrite <- (append_empty name).
  rewrite (deriveSlug_skips_prefix name "" H). reflexivity.
Qed.

(** X5: a name without any letter, digit or underscore has the empty slug,
    and [create] does not refuse it: the repo is posted to the path of the
    workspace followed by a slash and nothing. *)
Theorem create_empty_slug
  (api : Api.request -> completion value) (workspace : string) (repo : value)
  (name : string) (isPrivate : bool) (sent : list Api.request) :
  prop repo "name" = VStr name ->
  prop repo "is_private" = VBool isPrivate ->
  all_chars (fun c => negb (is_word c)) name = true ->
  deriveSlug name = ""
  /\ create api workspace repo sent
     = send api (Api.post ("repositories/" ++ encodeURI workspace ++ "/") repo)
         sent.
Proof.
  intros Hname Hprivate Hnone.
  split; [exact (deriveSlug_no_word name Hnone)|].
  rewrite (create_post api workspace repo sent name isPrivate Hname Hprivate).
  rewrite (deriveSlug_no_word name Hnone). reflexivity.
Qed.

Lemma create_empty_slug_witness :
  deriveSlug "?!" = ""
  /\ create quiet_api "ws" (VObj [("name", VStr "?!"); ("is_private", VBool true)])
       []
     = send quiet_api
         (Api.post ("repositories/" ++ encodeURI "ws" ++ "/")
            (VObj [("name", VStr "?!"); ("is_private", VBool true)])) [].
Proof.
  apply (create_empty_slug quiet_api "ws"
           (VObj [("name", VStr "?!"); ("is_private", VBool true)])
           "?!" true []); reflexivity.
Defined.

Lemma remove_quotes_toLowerCase (s : string) :
  remove_quotes (toLowerCase s) = toLowerCase (remove_quotes s).
Proof.
  induction s as [|c rest IH]; simpl; [reflexivity|].
  rewrite lower_char_quote, IH. destruct (is_quote c); reflexivity.
Qed.

Lemma dash_non_word_toLowerCase (s : string) :
  dash_non_word (toLowerCase s) = toLowerCase (dash_non_word s).
Proof.
  induction s as [|c rest IH]; simpl; [reflexivity|].
  rewrite lower_char_word, IH. destruct (is_word c); reflexivity.
Qed.

Lemma collapse_dashes_step (c : ascii) (rest : string) :
  collapse_dashes (String c rest)
  = if is_dash c && starts_with_dash rest then collapse_dashes rest
    else String c (collapse_dashes rest).
Proof.
  simpl. destruct (is_dash c); [|reflexivity].
  destruct rest as [|d r]; [reflexivity|].
  simpl. destruct (is_dash d); reflexivity.
Qed.

Lemma collapse_dashes_toLowerCase (s : string) :
  collapse_dashes (toLowerCase s) = toLowerCase (collapse_dashes s).
Proof.
  induction s as [|c rest IH]; [reflexivity|].
  change (toLowerCase (String c rest))
    with (String (lower_char c) (toLowerCase rest)).
  rewrite !collapse_dashes_step.
  rewrite lower_char_dash, starts_with_dash_toLowerCase, IH.
  destruct (is_dash c && starts_with_dash rest); reflexivity.
Qed.

Lemma strip_leading_dash_toLowerCase (s : string) :
  strip_leading_dash (toLowerCase s) = toLowerCase (strip_leading_dash s).
Proof.
  destruct s as [|c rest]; simpl; [reflexivity|].
  rewrite lower_char_dash. destruct (is_dash c); reflexivity.
Qed.

Lemma strip_trailing_dash_toLowerCase (s : string) :
  strip_trailing_dash (toLowerCase s) = toLowerCase (strip_trailing_dash s).
Proof.
  induction s as [|c rest IH]; [reflexivity|].
  destruct rest as [|d r].
  - simpl. rewrite lower_char_dash. destruct (is_dash c); reflexivity.
  - change (String (lower_char c)
              (strip_trailing_dash (toLowerCase (String d r)))
            = String (lower_char c)
                (toLowerCase (strip_trailing_dash (String d r)))).
    rewrite IH. reflexivity.
Qed.

Lemma toLowerCase_idempotent (s : string) :
  toLowerCase (toLowerCase s) = toLowerCase s.
Proof.
  induction s as [|c rest IH]; simpl; [reflexivity|].
  rewrite lower_char_idempotent, IH. reflexivity.
Qed.

(** X6: the slug of an ASCII name does not depend on its case: the name and
    its lower-cased form have the same slug. *)
Theorem deriveSlug_ignores_ascii_case (name : string) :
  all_chars is_ascii name = true ->
  deriveSlug (toLowerCase name) = deriveSlug name.
Proof.
  intros _. unfold deriveSlug.
  rewrite remove_quotes_toLowerCase, dash_non_word_toLowerCase,
    collapse_dashes_toLowerCase, strip_leading_dash_toLowerCase,
    strip_trailing_dash_toLowerCase.
  apply toLowerCase_idempotent.
Qed.

Lemma deriveSlug_ignores_ascii_case_witness :
  deriveSlug (toLowerCase "My REPO's Name") = deriveSlug "My REPO's Name".
Proof.
  apply (deriveSlug_ignores_ascii_case "My REPO's Name"). reflexivity.
Defined.

Lemma length_remove_quotes (s : string) :
  String.length (remove_quotes s) <= String.length s.
Proof.
  induction s as [|c rest IH]; simpl; [lia|].
  destruct (is_quote c); simpl; lia.
Qed.

Lemma length_dash_non_word (s : string) :
  String.length (dash_non_word s) = String.length s.
Proof. induction s as [|c rest IH]; simpl; [|rewrite IH]; reflexivity. Qed.

Lemma length_collapse_dashes (s : string) :
  String.length (collapse_dashes s) <= String.length s.
Proof.
  induction s as [|c rest IH]; [simpl; lia|].
  rewrite collapse_dashes_step.
  destruct (is_dash c && starts_with_dash rest); simpl; lia.
Qed.

Lemma length_strip_leading_dash (s : string) :
  String.length (strip_leading_dash s) <= String.length s.
Proof.
  destruct s as [|c rest]; simpl; [lia|].
  destruct (is_dash c); simpl; lia.
Qed.

Lemma length_strip_trailing_dash (s : string) :
  String.length (strip_trailing_dash s) <= String.length s.
Proof.
  induction s as [|c rest IH]; [simpl; lia|].
  destruct rest as [|d r].
  - simpl. destruct (is_dash c); simpl; lia.
  - change (S (String.length (strip_trailing_dash (String d r)))
            <= S (String.length (String d r))).
    lia.
Qed.

Lemma length_toLowerCase (s : string) :
  String.length (toLowerCase s) = String.length s.
Proof. induction s as [|c rest IH]; simpl; [|rewrite IH]; reflexivity. Qed.

(** X7: a slug is never longer than the name it is derived from. *)
Theorem deriveSlug_not_longer (name : string) :
  String.length (deriveSlug name) <= String.length name.
Proof.
  unfold deriveSlug. rewrite length_toLowerCase.
  pose proof (length_remove_quotes name) as H1.
  pose proof (length_dash_non_word (remove_quotes name)) as H2.
  pose proof (length_collapse_dashes (dash_non_word (remove_quotes name))) as H3.
  pose proof (length_strip_leading_dash
                (collapse_dashes (dash_non_word (remove_quotes name)))) as H4.
  pose proof (length_strip_trailing_dash
                (strip_leading_dash
                   (collapse_dashes (dash_non_word (remove_quotes name)))))
    as H5.
  lia.
Qed.

(** ** More on the request paths *)

Lemma encodeURI_kept (s : string) :
  all_chars encodeURI_keeps s = true -> encodeURI s = s.
Proof.
  induction s as [|c rest IH]; simpl; [reflexivity|].
  intros H. apply andb_true_iff in H as [Hc Hrest].
  rewrite Hc, (IH Hrest). reflexivity.
Qed.

Lemma encodeURI_deriveSlug (name : string) :
  encodeURI (deriveSlug name) = deriveSlug name.
Proof.
  apply encodeURI_kept.
  apply (all_chars_weaken derived_char);
    [exact derived_char_kept | apply deriveSlug_derived_chars].
Qed.

(** X8: [encodeURI] has nothing to escape in a derived slug, so [create]
    posts to the path of the encoded workspace and of the slug as it was
    derived. *)
Theorem create_path_holds_slug
  (api : Api.request -> completion value) (workspace : string) (repo : value)
  (name : string) (isPrivate : bool) (sent : list Api.request) :
  prop repo "name" = VStr name ->
  prop repo "is_private" = VBool isPrivate ->
  create api workspace repo sent
  = send api
      (Api.post ("repositories/" ++ encodeURI workspace ++ "/" ++ deriveSlug name)
         repo) sent.
Proof.
  intros Hname Hprivate.
  rewrite (create_post api workspace repo sent name isPrivate Hname Hprivate).
  rewrite encodeURI_deriveSlug. reflexivity.
Qed.

Lemma create_path_holds_slug_witness :
  create quiet_api "w s"
    (VObj [("name", VStr "Tools & Scripts (v2)"); ("is_private", VBool false)]) []
  = send quiet_api
      (Api.post ("repositories/" ++ encodeURI "w s" ++ "/"
                   ++ deriveSlug "Tools & Scripts (v2)")
         (VObj [("name", VStr "Tools & Scripts (v2)");
                ("is_private", VBool false)])) [].
Proof.
  apply (create_path_holds_slug quiet_api "w s"
           (VObj [("name", VStr "Tools & Scripts (v2)");
                  ("is_private", VBool false)])
           "Tools & Scripts (v2)" false []); reflexivity.
Defined.

Lemma repository_path_clean (workspace repoSlug suffix : string) :
  all_chars uri_char suffix = true ->
  all_chars uri_char
    ("repositories/" ++ encodeURI workspace ++ "/" ++ encodeURI repoSlug
       ++ suffix) = true.
Proof.
  intros Hsuffix.
  rewrite !all_chars_app, !encodeURI_chars, Hsuffix. reflexivity.
Qed.

(** X9: whatever the arguments, the path that [create], [createPullRequest],
    [get], [getBranches], [getPullRequests], [getPullRequestsWithFields],
    [getByWorkspace] and [getForks] hand to [api] holds URI characters only:
    no space, no control character, nothing beyond ASCII. *)
Theorem paths_are_clean
  (api : Api.request -> completion value) (states : value)
  (workspace repoSlug : string) :
  (forall repo, paths_clean (snd (create api workspace repo [])) = true)
  /\ (forall pullRequest,
        paths_clean
          (snd (createPullRequest api workspace repoSlug pullRequest []))
        = true)
  /\ paths_clean (snd (get api workspace repoSlug [])) = true
  /\ paths_clean (snd (getBranches api workspace repoSlug [])) = true
  /\ (forall state,
        paths_clean
          (snd (getPullRequests api states workspace repoSlug state []))
        = true)
  /\ (forall options,
        paths_clean
          (snd (getPullRequestsWithFields api states workspace repoSlug
                  options []))
        = true)
  /\ paths_clean (snd (getByWorkspace api workspace [])) = true
  /\ paths_clean (snd (getForks api workspace repoSlug [])) = true.
Proof.
  assert (Hrepo : forall suffix,
             all_chars uri_char suffix = true ->
             all_chars uri_char
               ("repositories/" ++ encodeURI workspace ++ "/"
                  ++ encodeURI repoSlug ++ suffix) && true = true).
  { intros suffix Hsuffix.
    rewrite (repository_path_clean workspace repoSlug suffix Hsuffix).
    reflexivity. }
  split.
  { intros repo. unfold create.
    destruct (negb (truthy repo)
              || negb (Lodash.isBoolean (prop repo "is_private"))
              || negb (Lodash.isString (prop repo "name"))); [reflexivity|].
    destruct (prop repo "name") as [| | | |name| |]; try reflexivity.
    unfold send, paths_clean. cbn [snd app forallb Api.path_of].
    rewrite !all_chars_app, !encodeURI_chars. reflexivity. }
  split; [intros pullRequest; exact (Hrepo "/pullrequests" eq_refl)|].
  split.
  { unfold get, send, paths_clean. cbn [snd app forallb Api.path_of].
    rewrite !all_chars_app, !encodeURI_chars. reflexivity. }
  split; [exact (Hrepo "/refs/branches" eq_refl)|].
  split; [intros state; exact (Hrepo "/pullrequests" eq_refl)|].
  split.
  { intros options. unfold getPullRequestsWithFields.
    destruct options; try reflexivity;
      match goal with
      | |- context [match ?f with _ => _ end] =>
          destruct f as [| | | | |fieldList|]; try reflexivity;
          destruct fieldList; [reflexivity|];
          exact (Hrepo "/pullrequests" eq_refl)
      end. }
  split; [|exact (Hrepo "/forks" eq_refl)].
  unfold getByWorkspace, send, paths_clean. cbn [snd app forallb Api.path_of].
  rewrite !all_chars_app, !encodeURI_chars. reflexivity.
Qed.

(** X10: [getCommit] puts the sha into the path as it is: the path it hands
    to [api] holds URI characters only exactly when the sha does. *)
Theorem getCommit_path_clean_iff_sha
  (api : Api.request -> completion value) (workspace repoSlug sha : string) :
  paths_clean (snd (getCommit api workspace repoSlug sha []))
  = all_chars uri_char sha.
Proof.
  unfold getCommit, send, paths_clean. cbn [snd app forallb Api.path_of].
  rewrite !all_chars_app, !encodeURI_chars.
  cbn [all_chars]. rewrite andb_true_r.
  destruct (all_chars uri_char sha); reflexivity.
Qed.

(** X11: a slash is carried over from an identifier to the path, so the
    path does not tell where the workspace ends: [get] makes the very same
    request for the workspace [a/b] with the repository [c] as for the
    workspace [a] with the repository [b/c]. *)
Theorem get_path_ambiguous
  (api : Api.request -> completion value) (a b c : string)
  (sent : list Api.request) :
  get api (a ++ "/" ++ b) c sent = get api a (b ++ "/" ++ c) sent.
Proof.
  unfold get. rewrite !encodeURI_app.
  change (encodeURI ("/" ++ b)) with ("/" ++ encodeURI b).
  change (encodeURI ("/" ++ c)) with ("/" ++ encodeURI c).
  rewrite !append_assoc. reflexivity.
Qed.

(** ** More on the state filter *)

(** With a fields list to go on with, the second query sends the state value
    the first query sends, beside the encoded fields. *)
Lemma with_fields_follows
  (api : Api.request -> completion value) (states : value)
  (workspace repoSlug : string) (options : value) (fields : list value)
  (sent : list Api.request) (stateValue : string) :
  prop options "fields" = VArr fields ->
  fields <> [] ->
  getPullRequests api states workspace repoSlug (prop options "state") sent
  = send api
      (Api.get (pullrequests_path workspace repoSlug)
         (VObj [("state", VStr stateValue)])) sent ->
  getPullRequestsWithFields api states workspace repoSlug options sent
  = send api
      (Api.get (pullrequests_path workspace repoSlug)
         (VObj [("state", VStr stateValue);
                ("fields",
                 VStr (String.concat ","
                         (map (fun field => "+" ++ ToString field) fields)))]))
      sent.
Proof.
  intros Hfields Hne Hstate.
  unfold getPullRequests, send in Hstate.
  injection Hstate as _ Hsent. apply app_inv_head in Hsent.
  injection Hsent as Hvalue.
  destruct options; try discriminate Hfields.
  unfold getPullRequestsWithFields. rewrite Hfields.
  destruct fields as [|field rest]; [contradiction|].
  cbn [List.length Nat.ltb Nat.leb].
  rewrite join_plus_fields, Hvalue. reflexivity.
Qed.

(** X12: when the state is absent or otherwise falsy ([undefined], [null],
    [false], [0], the empty string), both pull-request queries ask for the
    [OPEN] state. *)
Theorem absent_state_asks_OPEN
  (api : Api.request -> completion value) (states : value)
  (workspace repoSlug : string) (options : value) (fields : list value)
  (sent : list Api.request) :
  truthy (prop options "state") = false ->
  prop options "fields" = VArr fields ->
  fields <> [] ->
  getPullRequests api states workspace repoSlug (prop options "state") sent
  = send api
      (Api.get (pullrequests_path workspace repoSlug)
         (VObj [("state", VStr (join [OPEN states] ","))])) sent
  /\ getPullRequestsWithFields api states workspace repoSlug options sent
     = send api
         (Api.get (pullrequests_path workspace repoSlug)
            (VObj [("state", VStr (join [OPEN states] ","));
                   ("fields",
                    VStr (String.concat ","
                            (map (fun field => "+" ++ ToString field)
                               fields)))])) sent.
Proof.
  intros Hfalsy Hfields Hne.
  pose proof (getPullRequests_absent_state api states workspace repoSlug
                (prop options "state") sent Hfalsy) as Hfirst.
  split; [exact Hfirst|].
  exact (with_fields_follows api states workspace repoSlug options fields sent
           _ Hfields Hne Hfirst).
Qed.

Lemma absent_state_asks_OPEN_witness :
  getPullRequests quiet_api pullRequest_states "ws" "repo"
    (prop (VObj [("fields", VArr [VStr "values.id"])]) "state") []
  = send quiet_api
      (Api.get (pullrequests_path "ws" "repo")
         (VObj [("state", VStr "OPEN")])) []
  /\ getPullRequestsWithFields quiet_api pullRequest_states "ws" "repo"
       (VObj [("fields", VArr [VStr "values.id"])]) []
     = send quiet_api
         (Api.get (pullrequests_path "ws" "repo")
            (VObj [("state", VStr "OPEN"); ("fields", VStr "+values.id")])) [].
Proof.
  apply (absent_state_asks_OPEN quiet_api pullRequest_states "ws" "repo"
           (VObj [("fields", VArr [VStr "values.id"])]) [VStr "values.id"] []);
    [reflexivity | reflexivity | discriminate].
Defined.

(** X13: a sequence of valid state tokens (the empty sequence too) is kept
    as it is by both pull-request queries: the state value is its comma-join,
    in the order given. *)
Theorem valid_states_kept_in_order
  (api : Api.request -> completion value) (states : value)
  (workspace repoSlug : string) (options : value) (elems fields : list value)
  (sent : list Api.request) :
  prop options "state" = VArr elems ->
  forallb (Lodash.includes states) elems = true ->
  prop options "fields" = VArr fields ->
  fields <> [] ->
  getPullRequests api states workspace repoSlug (VArr elems) sent
  = send api
      (Api.get (pullrequests_path workspace repoSlug)
         (VObj [("state", VStr (join elems ","))])) sent
  /\ getPullRequestsWithFields api states workspace repoSlug options sent
     = send api
         (Api.get (pullrequests_path workspace repoSlug)
            (VObj [("state", VStr (join elems ","));
                   ("fields",
                    VStr (String.concat ","
                            (map (fun field => "+" ++ ToString field)
                               fields)))])) sent.
Proof.
  intros Hstate Hvalid Hfields Hne.
  pose proof (getPullRequests_valid_sequence api states workspace repoSlug
                elems sent Hvalid) as Hfirst.
  split; [exact Hfirst|].
  rewrite <- Hstate in Hfirst.
  exact (with_fields_follows api states workspace repoSlug options fields sent
           _ Hfields Hne Hfirst).
Qed.

Lemma valid_states_kept_in_order_witness :
  getPullRequests quiet_api pullRequest_states "ws" "repo"
    (VArr [VStr "DECLINED"; VStr "OPEN"; VStr "DECLINED"]) []
  = send quiet_api
      (Api.get (pullrequests_path "ws" "repo")
         (VObj [("state", VStr "DECLINED,OPEN,DECLINED")])) []
  /\ getPullRequestsWithFields quiet_api pullRequest_states "ws" "repo"
       (VObj [("state", VArr [VStr "DECLINED"; VStr "OPEN"; VStr "DECLINED"]);
              ("fields", VArr [VStr "values.id"])]) []
     = send quiet_api
         (Api.get (pullrequests_path "ws" "repo")
            (VObj [("state", VStr "DECLINED,OPEN,DECLINED");
                   ("fields", VStr "+values.id")])) [].
Proof.
  apply (valid_states_kept_in_order quiet_api pullRequest_states "ws" "repo"
           (VObj [("state", VArr [VStr "DECLINED"; VStr "OPEN"; VStr "DECLINED"]);
                  ("fields", VArr [VStr "values.id"])])
           [VStr "DECLINED"; VStr "OPEN"; VStr "DECLINED"]
           [VStr "values.id"] []);
    [reflexivity | reflexivity | reflexivity | discriminate].
Defined.

(** X14: a sequence whose first token outside the enumeration is truthy is
    dropped as a whole by both pull-request queries, which ask for [OPEN],
    whatever stands before and after that token. *)
Theorem truthy_invalid_state_asks_OPEN
  (api : Api.request -> completion value) (states : value)
  (workspace repoSlug : string) (options : value)
  (valid rest fields : list value) (invalid : value)
  (sent : list Api.request) :
  prop options "state" = VArr (valid ++ invalid :: rest) ->
  forallb (Lodash.includes states) valid = true ->
  Lodash.includes states invalid = false ->
  truthy invalid = true ->
  prop options "fields" = VArr fields ->
  fields <> [] ->
  getPullRequests api states workspace repoSlug
    (VArr (valid ++ invalid :: rest)) sent
  = send api
      (Api.get (pullrequests_path workspace repoSlug)
         (VObj [("state", VStr (join [OPEN states] ","))])) sent
  /\ getPullRequestsWithFields api states workspace repoSlug options sent
     = send api
         (Api.get (pullrequests_path workspace repoSlug)
            (VObj [("state", VStr (join [OPEN states] ","));
                   ("fields",
                    VStr (String.concat ","
                            (map (fun field => "+" ++ ToString field)
                               fields)))])) sent.
Proof.
  intros Hstate Hvalid Hinvalid Htruthy Hfields Hne.
  pose proof (getPullRequests_truthy_invalid api states workspace repoSlug
                valid rest invalid sent Hvalid Hinvalid Htruthy) as Hfirst.
  split; [exact Hfirst|].
  rewrite <- Hstate in Hfirst.
  exact (with_fields_follows api states workspace repoSlug options fields sent
           _ Hfields Hne Hfirst).
Qed.

Lemma truthy_invalid_state_asks_OPEN_witness :
  getPullRequests quiet_api pullRequest_states "ws" "repo"
    (VArr ([VStr "MERGED"] ++ VStr "BOGUS" :: [VStr "DECLINED"])) []
  = send quiet_api
      (Api.get (pullrequests_path "ws" "repo")
         (VObj [("state", VStr "OPEN")])) []
  /\ getPullRequestsWithFields quiet_api pullRequest_states "ws" "repo"
       (VObj [("state", VArr [VStr "MERGED"; VStr "BOGUS"; VStr "DECLINED"]);
              ("fields", VArr [VStr "values.id"])]) []
     = send quiet_api
         (Api.get (pullrequests_path "ws" "repo")
            (VObj [("state", VStr "OPEN"); ("fields", VStr "+values.id")])) [].
Proof.
  apply (truthy_invalid_state_asks_OPEN quiet_api pullRequest_states "ws" "repo"
           (VObj [("state", VArr [VStr "MERGED"; VStr "BOGUS"; VStr "DECLINED"]);
                  ("fields", VArr [VStr "values.id"])])
           [VStr "MERGED"] [VStr "DECLINED"] [VStr "values.id"]
           (VStr "BOGUS") []);
    [reflexivity | reflexivity | reflexivity | reflexivity | reflexivity
    | discriminate].
Defined.

(** X15: a non-zero integer of the safe range or [true] passed as the state
    is not checked against the enumeration at all: [_.find] has nothing to
    walk through, and both the number and the boolean reach the request as
    their string, which for such a number is its plain decimal form. *)
Theorem number_state_not_validated
  (api : Api.request -> completion value) (states : value)
  (workspace repoSlug : string) (n : Z) (sent : list Api.request) :
  n <> 0%Z ->
  (- Lodash.MAX_SAFE_INTEGER <= n <= Lodash.MAX_SAFE_INTEGER)%Z ->
  getPullRequests api states workspace repoSlug (VNum n) sent
  = send api
      (Api.get (pullrequests_path workspace repoSlug)
         (VObj [("state", VStr (string_of_Z n))])) sent
  /\ getPullRequests api states workspace repoSlug (VBool true) sent
     = send api
         (Api.get (pullrequests_path workspace repoSlug)
            (VObj [("state", VStr "true")])) sent.
Proof.
  intros Hn _. split; [|reflexivity].
  unfold getPullRequests. cbn [truthy].
  apply Z.eqb_neq in Hn. rewrite Hn. reflexivity.
Qed.

Lemma number_state_not_validated_witness :
  getPullRequests quiet_api pullRequest_states "ws" "repo" (VNum 42) []
  = send quiet_api
      (Api.get (pullrequests_path "ws" "repo")
         (VObj [("state", VStr "42")])) []
  /\ getPullRequests quiet_api pullRequest_states "ws" "repo" (VBool true) []
     = send quiet_api
         (Api.get (pullrequests_path "ws" "repo")
            (VObj [("state", VStr "true")])) [].
Proof.
  apply (number_state_not_validated quiet_api pullRequest_states "ws" "repo"
           42%Z []).
  - discriminate.
  - unfold Lodash.MAX_SAFE_INTEGER. lia.
Defined.

(** ** The parent of a fork *)

Lemma parent_link_needs_parent (body : value) :
  truthy (Lodash.get body ["parent"; "links"; "self"; "href"]) = true ->
  exists props, prop body "parent" = VObj props
                /\ body <> VUndefined /\ body <> VNull.
Proof.
  unfold Lodash.get. cbn [Lodash.baseGet].
  destruct body as [| |b|n|s|elems|props];
    try (intros H; discriminate H).
  destruct (prop (VObj props) "parent") as [| |b|n|s|elems|parent];
    try (intros H; discriminate H).
  intros _. exists parent. repeat split; discriminate.
Qed.

(** X16: [getParentFromResponse] reads [parent.links.self.href] in the body
    of the response; it throws its error, without making a request, exactly
    when what it read is falsy, and otherwise hands that URL to
    [api.request.doPrebuiltSend] and completes as that does. *)
Theorem getParentFromResponse_link
  (api : Api.request -> completion value)
  (extractResponseBody : value -> value) (response : value)
  (sent : list Api.request) :
  ((exists e, getParentFromResponse api extractResponseBody response sent
              = (Throw e, sent))
   <-> truthy (Lodash.get (extractResponseBody response)
                 ["parent"; "links"; "self"; "href"]) = false)
  /\ (truthy (Lodash.get (extractResponseBody response)
                ["parent"; "links"; "self"; "href"]) = false ->
      getParentFromResponse api extractResponseBody response sent
      = (Throw parent_error, sent))
  /\ (truthy (Lodash.get (extractResponseBody response)
                ["parent"; "links"; "self"; "href"]) = true ->
      getParentFromResponse api extractResponseBody response sent
      = send api
          (Api.doPrebuiltSend
             (Lodash.get (extractResponseBody response)
                ["parent"; "links"; "self"; "href"])) sent).
Proof.
  unfold getParentFromResponse.
  destruct (truthy (Lodash.get (extractResponseBody response)
                      ["parent"; "links"; "self"; "href"])) eqn:Htruthy;
    cbn [negb].
  - split; [|split; [discriminate|reflexivity]].
    split; [|discriminate].
    intros [e He]. exfalso. exact (send_extends _ _ _ _ He).
  - split; [|split; [reflexivity|discriminate]].
    split; [reflexivity|]. intros _. eexists. reflexivity.
Qed.

Lemma getParentFromResponse_link_witness :
  getParentFromResponse quiet_api responseBody
    (VObj [("parent", VObj [("links", VObj [])])]) []
  = (Throw parent_error, [])
  /\ getParentFromResponse quiet_api responseBody
       (VObj [("parent",
               VObj [("links",
                      VObj [("self", VObj [("href", VStr "U")])])])]) []
     = send quiet_api (Api.doPrebuiltSend (VStr "U")) [].
Proof.
  split.
  - apply (getParentFromResponse_link quiet_api responseBody
             (VObj [("parent", VObj [("links", VObj [])])]) []).
    reflexivity.
  - destruct (getParentFromResponse_link quiet_api responseBody
                (VObj [("parent",
                        VObj [("links",
                               VObj [("self", VObj [("href", VStr "U")])])])])
                []) as (_ & _ & Hsend).
    apply Hsend. reflexivity.
Defined.

(** X17: [hasParent] is the guard [getParentFromResponse] needs: when
    [hasParent] answers [false] the other method throws its error without a
    request, and whenever the other method makes a request [hasParent]
    answers [true]. *)
Theorem hasParent_guards_getParentFromResponse
  (api : Api.request -> completion value)
  (extractResponseBody : value -> value) (response : value)
  (sent : list Api.request) :
  (hasParent extractResponseBody response = Return false ->
   getParentFromResponse api extractResponseBody response sent
   = (Throw parent_error, sent))
  /\ (snd (getParentFromResponse api extractResponseBody response sent) <> sent ->
      hasParent extractResponseBody response = Return true).
Proof.
  unfold getParentFromResponse, hasParent.
  destruct (truthy (Lodash.get (extractResponseBody response)
                      ["parent"; "links"; "self"; "href"])) eqn:Htruthy;
    cbn [negb].
  - apply parent_link_needs_parent in Htruthy
      as (props & Hparent & Hundefined & Hnull).
    split.
    + destruct (extractResponseBody response); try contradiction;
        rewrite Hparent; intros H; discriminate H.
    + intros _.
      destruct (extractResponseBody response); try contradiction;
        rewrite Hparent; reflexivity.
  - split; [reflexivity|]. intros H. exfalso. apply H. reflexivity.
Qed.

Lemma hasParent_guards_getParentFromResponse_witness :
  getParentFromResponse quiet_api responseBody (VObj [("parent", VNull)]) []
  = (Throw parent_error, [])
  /\ hasParent responseBody
       (VObj [("parent",
               VObj [("links",
                      VObj [("self", VObj [("href", VStr "U")])])])])
     = Return true.
Proof.
  split.
  - apply (hasParent_guards_getParentFromResponse quiet_api responseBody
             (VObj [("parent", VNull)]) []).
    reflexivity.
  - destruct (hasParent_guards_getParentFromResponse quiet_api responseBody
                (VObj [("parent",
                        VObj [("links",
                               VObj [("self", VObj [("href", VStr "U")])])])])
                []) as (_ & Hsent).
    apply Hsent. discriminate.
Defined.

(** X18: the guard is not enough: for a body whose [parent] is truthy but
    holds no [links], [hasParent] answers [true] and [getParentFromResponse]
    still throws its error. *)
Theorem hasParent_true_may_still_throw
  (api : Api.request -> completion value)
  (extractResponseBody : value -> value) (response : value)
  (sent : list Api.request) :
  truthy (prop (extractResponseBody response) "parent") = true ->
  prop (prop (extractResponseBody response) "parent") "links" = VUndefined ->
  hasParent extractResponseBody response = Return true
  /\ getParentFromResponse api extractResponseBody response sent
     = (Throw parent_error, sent).
Proof.
  intros Hparent Hlinks.
  unfold hasParent, getParentFromResponse, Lodash.get.
  cbn [Lodash.baseGet].
  destruct (extractResponseBody response) as [| |b|n|s|elems|props];
    try discriminate Hparent.
  rewrite Hparent. split; [reflexivity|].
  destruct (prop (VObj props) "parent") as [| |b|n|s|elems|parent];
    try discriminate Hparent; try reflexivity.
  rewrite Hlinks. reflexivity.
Qed.

Lemma hasParent_true_may_still_throw_witness :
  hasParent responseBody (VObj [("parent", VObj [("name", VStr "upstream")])])
  = Return true
  /\ getParentFromResponse quiet_api responseBody
       (VObj [("parent", VObj [("name", VStr "upstream")])]) []
     = (Throw parent_error, []).
Proof.
  apply (hasParent_true_may_still_throw quiet_api responseBody
           (VObj [("parent", VObj [("name", VStr "upstream")])]) []);
    reflexivity.
Defined.

(** X19: on a body that is [undefined] or [null] the two link methods throw
    their own errors without a request, while [hasParent] fails with a
    [TypeError]. *)
Theorem missing_body
  (api : Api.request -> completion value)
  (extractResponseBody : value -> value) (response : value)
  (sent : list Api.request) :
  extractResponseBody response = VUndefined
  \/ extractResponseBody response = VNull ->
  (exists message,
     hasParent extractResponseBody response = Throw (TypeError message))
  /\ getForksFromResponse api extractResponseBody response sent
     = (Throw forks_error, sent)
  /\ getParentFromResponse api extractResponseBody response sent
     = (Throw parent_error, sent).
Proof.
  unfold hasParent, getForksFromResponse, getParentFromResponse.
  intros [Hbody|Hbody]; rewrite Hbody;
    (split; [eexists; reflexivity|split; reflexivity]).
Qed.

Lemma missing_body_witness :
  (exists message,
     hasParent responseBody VUndefined = Throw (TypeError message))
  /\ getForksFromResponse quiet_api responseBody VUndefined []
     = (Throw forks_error, [])
  /\ getParentFromResponse quiet_api responseBody VUndefined []
     = (Throw parent_error, []).
Proof.
  apply (missing_body quiet_api responseBody VUndefined []).
  left. reflexivity.
Defined.

(** ** One request at most *)

(** X20: every method that talks to [api] either throws by itself before
    any request, or makes exactly one request, after the earlier ones, and
    completes exactly as [api] does on it, a failure of [api] included. *)
Theorem methods_hand_over
  (api : Api.request -> completion value) (states : value)
  (extractResponseBody : value -> value) (workspace repoSlug : string) :
  (forall repo, hands_over api (create api workspace repo))
  /\ (forall pullRequest,
        hands_over api (createPullRequest api workspace repoSlug pullRequest))
  /\ hands_over api (get api workspace repoSlug)
  /\ hands_over api (getBranches api workspace repoSlug)
  /\ (forall sha, hands_over api (getCommit api workspace repoSlug sha))
  /\ (forall state,
        hands_over api (getPullRequests api states workspace repoSlug state))
  /\ (forall options,
        hands_over api
          (getPullRequestsWithFields api states workspace repoSlug options))
  /\ hands_over api (getByWorkspace api workspace)
  /\ hands_over api (getForks api workspace repoSlug)
  /\ (forall response,
        hands_over api (getForksFromResponse api extractResponseBody response))
  /\ (forall response,
        hands_over api (getParentFromResponse api extractResponseBody response)).
Proof.
  assert (Hsend : forall r, hands_over api (send api r))
    by (intros r sent; right; exists r; reflexivity).
  assert (Hthrow : forall e, hands_over api (throw e))
    by (intros e sent; left; exists e; reflexivity).
  repeat split; intros; try apply Hsend.
  - unfold create.
    destruct (negb (truthy repo)
              || negb (Lodash.isBoolean (prop repo "is_private"))
              || negb (Lodash.isString (prop repo "name"))); [apply Hthrow|].
    destruct (prop repo "name"); first [apply Hsend | apply Hthrow].
  - unfold getPullRequestsWithFields.
    destruct options; try apply Hthrow;
      match goal with
      | |- context [match ?f with _ => _ end] =>
          destruct f as [| | | | |fieldList|]; try apply Hthrow;
          destruct fieldList; first [apply Hthrow | apply Hsend]
      end.
  - unfold getForksFromResponse.
    destruct (negb _); first [apply Hthrow | apply Hsend].
  - unfold getParentFromResponse.
    destruct (negb _); first [apply Hthrow | apply Hsend].
Qed.
